(** * pdf-tools-etc: a shallow embedding of [pdf-to-beamer.py] and
    [pdf-to-image.py], and the properties of their page pipeline.

    Layout of the development:
    - Part I    Python values the scripts compute with: exceptions, strings
                ([str], [int], [zfill], [endswith], [strip], [lower], the
                two uses of [re]), [os.path] and [pathlib], the stable
                [sorted].
    - Part II   the world the scripts act on (files and standard output)
                and the state-and-exception monad of their effects.
    - Part III  [pdf-to-beamer.py], function by function.
    - Part IV   [pdf-to-image.py].
    - Example inputs: concrete documents, directories and collaborators.
    - Part V    lemmas and the theorems about the pipeline.
    - Part VI   further properties of the two scripts: the sort key, the
                extraction, complete runs of [main], the numbered images.

    Modelling conventions.
    - A Python [str] is the [string] of its UTF-8 bytes; text is taken to
      be well formed (no lone surrogates).  Separators, digits and the
      patterns the scripts look for are ASCII, so splitting, searching and
      deleting act on the bytes as they act on the characters.  File names
      are taken to be ASCII and of ordinary length, so the class [\d] of
      [re] is the ten characters 0-9 and [int] reads what it captured.
    - A Python [int] that counts pages is a [nat].
    - A Python [float] is a rational number ([Qc]); every float operation is
      the exact operation followed by a rounding function [rnd], which is a
      parameter of the model (see [GeometryNormalizer] below).  Infinities
      and NaN are not modelled.
    - Paths are joined the POSIX way, with [/], and a newline is written
      to a file as it is.
    - A file holds the bytes written to it.  A file opened in text mode is
      taken to hold well-formed UTF-8; reading it translates the line ends
      CR and CRLF to LF, as Python's universal newlines do.
    - The operating system is a collaborator: whether a directory can be
      listed, a file opened for writing or a directory created is its
      answer, which may be an exception.  Where a script has created the
      directory it writes to ([main] for the artifacts, lines 164-166;
      [convert_page_to_image], lines 62-63; [pdf-to-image.py], line 25),
      the write is taken to succeed. *)

From Stdlib Require Import Ascii QArith Qcanon Qround.
From stdpp Require Import gmap strings list sorting numbers.

Open Scope string_scope.

(* ================================================================== *)
(** * Part I. Python values *)
(* ================================================================== *)

(** ** Exceptions

    The scripts define no exception class of their own and contain no
    [raise]; every failure is a built-in exception or one raised inside a
    collaborator (PyMuPDF, pdf2image, the OpenAI client, the OS).  The
    constructor [UserError] names an exception class by its identifier so
    that the error taxonomy of the specification can be written down. *)
Inductive exn : Type :=
  | ZeroDivisionError
  | AttributeError
  | ValueError
  | IndexError
  | FileNotFoundError
  | SystemExit (code : nat)
  | CollaboratorError (msg : string)
  | UserError (cls : string).

#[global] Instance exn_eq_dec : EqDecision exn.
Proof. solve_decision. Defined.

Definition MalformedPageError : exn := UserError "MalformedPageError".
Definition AssemblyError : exn := UserError "AssemblyError".

(** The outcome of evaluating a Python expression. *)
Inductive result (A : Type) : Type :=
  | Ok (a : A)
  | Raise (e : exn).
Arguments Ok {A} a.
Arguments Raise {A} e.

(** ** Characters and strings *)

Definition nl : string := String (ascii_of_nat 10) "".

(** The digits 0-9: what [\d] matches and [int] reads in ASCII text. *)
Definition is_digit (c : ascii) : bool :=
  let n := nat_of_ascii c in ((48 <=? n) && (n <=? 57))%nat.

Definition digit_chr (d : nat) : ascii := ascii_of_nat (48 + d).

Definition digit_val (c : ascii) : nat := nat_of_ascii c - 48.

(** [str(n)] for a non-negative [int]: the decimal numeral, most
    significant digit first, no leading zero.  [fuel] bounds the number of
    digits; [S n] is always enough. *)
Fixpoint str_go (fuel n : nat) (acc : string) : string :=
  match fuel with
  | 0 => acc
  | S fuel' =>
      let acc' := String (digit_chr (n mod 10)) acc in
      if (n <? 10)%nat then acc' else str_go fuel' (n / 10) acc'
  end.

Definition str (n : nat) : string := str_go (S n) n "".

(** [int(s)] on a [str]: the value of a non-empty run of decimal digits
    (leading zeros allowed), [ValueError] otherwise.  Signs, surrounding
    blanks and underscores, and the cap that recent interpreters put on the
    number of digits, do not arise from [\d+] on file names of ordinary
    length and are left out. *)
Fixpoint int_go (acc : nat) (s : string) : option nat :=
  match s with
  | "" => Some acc
  | String c s' =>
      if is_digit c then int_go (10 * acc + digit_val c) s' else None
  end.

Definition int (s : string) : result nat :=
  match s with
  | "" => Raise ValueError
  | _ => match int_go 0 s with Some n => Ok n | None => Raise ValueError end
  end.

(** [n * c]: the string of [n] copies of [c]. *)
Fixpoint replicate_chr (n : nat) (c : ascii) : string :=
  match n with
  | 0 => ""
  | S n' => String c (replicate_chr n' c)
  end.

(** [s.zfill(width)]: pad with ['0'] on the left up to [width]; a leading
    sign stays in front of the padding. *)
Definition zfill (s : string) (width : nat) : string :=
  let n := String.length s in
  if (width <=? n)%nat then s
  else
    let fill := replicate_chr (width - n) "0"%char in
    match s with
    | String c s' =>
        if (Ascii.eqb c "+" || Ascii.eqb c "-")%bool
        then String c (fill +:+ s')
        else fill +:+ s
    | "" => fill
    end.

(** For reference, not used by the scripts: the numeral of [m] written with
    exactly [w] digits, leading zeros included (for [m < 10 ^ w]). *)
Fixpoint dec (w m : nat) : string :=
  match w with
  | 0 => ""
  | S w' => dec w' (m / 10) +:+ String (digit_chr (m mod 10)) ""
  end.

(** [s.endswith(suffix)]. *)
Definition endswith (s suffix : string) : bool :=
  let n := String.length s in
  let k := String.length suffix in
  (k <=? n)%nat && String.eqb (String.substring (n - k) k s) suffix.

(** [s1 < s2] on [str]: lexicographic on code points. *)
Definition str_lt (s1 s2 : string) : bool := String.ltb s1 s2.

(** Python's whitespace among the ASCII characters: tab, newline, vertical
    tab, form feed, carriage return, the four separators 0x1c-0x1f and
    space. *)
Definition is_space (c : ascii) : bool :=
  let n := nat_of_ascii c in
  (((9 <=? n) && (n <=? 13)) || ((28 <=? n) && (n <=? 32)))%nat.

(** What follows a whitespace character at the head of [s], if [s] starts
    with one.  Whitespace is what [str.isspace] says: the ASCII characters
    above and U+0085, U+00A0, U+1680, U+2000-200A, U+2028, U+2029, U+202F,
    U+205F, U+3000, here in UTF-8 (C2 85, C2 A0, E1 9A 80, E2 80 80-8A,
    E2 80 A8, E2 80 A9, E2 80 AF, E2 81 9F, E3 80 80). *)
Definition drop_space (s : string) : option string :=
  match s with
  | "" => None
  | String c1 s1 =>
      if is_space c1 then Some s1
      else
        match s1 with
        | "" => None
        | String c2 s2 =>
            let b1 := nat_of_ascii c1 in
            let b2 := nat_of_ascii c2 in
            if ((b1 =? 194) && ((b2 =? 133) || (b2 =? 160)))%nat then Some s2
            else
              match s2 with
              | "" => None
              | String c3 s3 =>
                  let b3 := nat_of_ascii c3 in
                  if (((b1 =? 225) && (b2 =? 154) && (b3 =? 128)) ||
                      ((b1 =? 226) && (b2 =? 128) &&
                       (((128 <=? b3) && (b3 <=? 138)) ||
                        (b3 =? 168) || (b3 =? 169) || (b3 =? 175))) ||
                      ((b1 =? 226) && (b2 =? 129) && (b3 =? 159)) ||
                      ((b1 =? 227) && (b2 =? 128) && (b3 =? 128)))%nat
                  then Some s3
                  else None
              end
        end
  end.

(** [s.lstrip()]; [fuel] bounds the number of characters dropped. *)
Fixpoint lstrip_go (fuel : nat) (s : string) : string :=
  match fuel with
  | 0 => s
  | S fuel' =>
      match drop_space s with
      | Some r => lstrip_go fuel' r
      | None => s
      end
  end.

Definition lstrip (s : string) : string := lstrip_go (String.length s) s.

(** [s.rstrip()]: the string is cut where what remains is whitespace
    only. *)
Fixpoint rstrip (s : string) : string :=
  match s with
  | "" => ""
  | String c s' =>
      if String.eqb (lstrip (String c s')) "" then "" else String c (rstrip s')
  end.

(** [s.strip()]. *)
Definition strip (s : string) : string := rstrip (lstrip s).

(** What reading in text mode makes of the line ends (universal
    newlines): CRLF and a lone CR become LF. *)
Fixpoint universal_newlines (s : string) : string :=
  match s with
  | "" => ""
  | String c s' =>
      if (nat_of_ascii c =? 13)%nat
      then String (ascii_of_nat 10)
             match s' with
             | String c' s'' =>
                 if (nat_of_ascii c' =? 10)%nat
                 then universal_newlines s''
                 else universal_newlines s'
             | "" => ""
             end
      else String c (universal_newlines s')
  end.

(** For reference: a string of ASCII characters. *)
Fixpoint is_ascii (s : string) : bool :=
  match s with
  | "" => true
  | String c s' => (nat_of_ascii c <? 128)%nat && is_ascii s'
  end.

(** [s.lower()] as far as an ASCII outcome goes: the letters A-Z are
    lowered.  No other character lowers to an ASCII character, so leaving
    the others as they are does not change whether the outcome equals an
    ASCII string such as [".pdf"]. *)
Fixpoint lower (s : string) : string :=
  match s with
  | "" => ""
  | String c s' =>
      let n := nat_of_ascii c in
      String (if ((65 <=? n) && (n <=? 90))%nat then ascii_of_nat (n + 32) else c)
             (lower s')
  end.

(** [c in s] for a character [c]. *)
Fixpoint has_chr (c : ascii) (s : string) : bool :=
  match s with
  | "" => false
  | String c' s' => Ascii.eqb c c' || has_chr c s'
  end.

(** [s.split(sep)[-1]] for a one-character separator: what follows the last
    occurrence of [sep]. *)
Fixpoint split_last (sep : ascii) (s : string) : string :=
  match s with
  | "" => ""
  | String c s' =>
      if has_chr sep s'
      then split_last sep s'
      else if Ascii.eqb c sep then s' else s
  end.

(** [s.split(sep)[0]] for a one-character separator: what precedes the
    first occurrence of [sep]. *)
Fixpoint split_first (sep : ascii) (s : string) : string :=
  match s with
  | "" => ""
  | String c s' => if Ascii.eqb c sep then "" else String c (split_first sep s')
  end.

(** [os.path.join(a, b)] (posixpath). *)
Definition os_path_join (a b : string) : string :=
  if String.prefix "/" b then b
  else if (String.eqb a "" || endswith a "/")%bool then a +:+ b
  else a +:+ "/" +:+ b.

(** [os.path.dirname(p)] (posixpath): what precedes the last slash,
    without trailing slashes unless it consists of slashes only. *)
Fixpoint rfind_slash_end (p : string) : nat :=
  match p with
  | "" => 0
  | String c p' =>
      match rfind_slash_end p' with
      | 0 => if Ascii.eqb c "/" then 1 else 0
      | S i => S (S i)
      end
  end.

Fixpoint rstrip_slash (s : string) : string :=
  match s with
  | "" => ""
  | String c s' =>
      match rstrip_slash s' with
      | "" => if Ascii.eqb c "/" then "" else String c ""
      | r => String c r
      end
  end.

Definition dirname (p : string) : string :=
  let head := String.substring 0 (rfind_slash_end p) p in
  match rstrip_slash head with
  | "" => head
  | stripped => stripped
  end.

(** ** [pathlib.Path] (a [PurePosixPath] as far as it is pure)

    [Path(s)] keeps the components of [s] between slashes that are neither
    empty nor [.], and a root: [/], or [//] when [s] starts with exactly
    two slashes. *)

(** [s.split("/")] *)
Fixpoint split_slash (s : string) : list string :=
  match s with
  | "" => [""]
  | String c s' =>
      if Ascii.eqb c "/" then "" :: split_slash s'
      else
        match split_slash s' with
        | x :: xs => String c x :: xs
        | [] => [String c ""]
        end
  end.

Definition path_parts (s : string) : list string :=
  filter (λ x, x ≠ "" ∧ x ≠ ".") (split_slash s).

Fixpoint leading_slashes (s : string) : nat :=
  match s with
  | "" => 0
  | String c s' => if Ascii.eqb c "/" then S (leading_slashes s') else 0
  end.

Definition path_root (s : string) : string :=
  match leading_slashes s with
  | 0 => ""
  | 2 => "//"
  | _ => "/"
  end.

Fixpoint join_slash (parts : list string) : string :=
  match parts with
  | [] => ""
  | [x] => x
  | x :: parts' => x +:+ "/" +:+ join_slash parts'
  end.

(** [str(Path(s))] *)
Definition path_str (s : string) : string :=
  match path_root s, path_parts s with
  | "", [] => "."
  | root, parts => root +:+ join_slash parts
  end.

(** [Path(s).name]: the last component, empty when there is none. *)
Definition path_name (s : string) : string := List.last (path_parts s) "".

(** [name.rfind(".")] *)
Fixpoint rfind_dot (name : string) : option nat :=
  match name with
  | "" => None
  | String c name' =>
      match rfind_dot name' with
      | Some i => Some (S i)
      | None => if Ascii.eqb c "." then Some 0 else None
      end
  end.

(** [Path(s).suffix] and [Path(s).stem]: the name is split at its last
    dot, unless that dot is its first or its last character. *)
Definition path_suffix (s : string) : string :=
  let name := path_name s in
  match rfind_dot name with
  | Some i =>
      if ((0 <? i) && (i <? String.length name - 1))%nat
      then String.substring i (String.length name - i) name
      else ""
  | None => ""
  end.

Definition path_stem (s : string) : string :=
  let name := path_name s in
  match rfind_dot name with
  | Some i =>
      if ((0 <? i) && (i <? String.length name - 1))%nat
      then String.substring 0 i name
      else name
  | None => name
  end.

(** ** The two regular expressions

    [re.search(r"_page_(\d+)\.tex", x)] scans [x] from the left for the first
    position where the pattern matches and returns group 1.  At a given
    position the pattern can only match with [\d+] taking the whole run of
    digits that follows [_page_]: a shorter choice leaves a digit where
    [\.] is required.  So backtracking never changes the outcome and the
    match is decided by the maximal run. *)

(** [strip_prefix p s] is [Some r] when [s = p + r]. *)
Fixpoint strip_prefix (p s : string) : option string :=
  match p, s with
  | "", _ => Some s
  | String a p', String b s' =>
      if Ascii.eqb a b then strip_prefix p' s' else None
  | String _ _, "" => None
  end.

(** The maximal run of digits at the head of [s], and what follows it. *)
Fixpoint span_digits (s : string) : string * string :=
  match s with
  | "" => ("", "")
  | String c s' =>
      if is_digit c
      then let '(d, r) := span_digits s' in (String c d, r)
      else ("", s)
  end.

(** The pattern matched at the head of [s]: group 1 on success. *)
Definition match_page_at (s : string) : option string :=
  match strip_prefix "_page_" s with
  | None => None
  | Some rest =>
      let '(ds, rest') := span_digits rest in
      match ds with
      | "" => None
      | _ => if String.prefix ".tex" rest' then Some ds else None
      end
  end.

(** [re.search(r"_page_(\d+)\.tex", x)], reduced to group 1 of the match;
    [None] is Python's [None]. *)
Fixpoint re_search_page (x : string) : option string :=
  match match_page_at x with
  | Some ds => Some ds
  | None =>
      match x with
      | "" => None
      | String _ x' => re_search_page x'
      end
  end.

(** The sort key of [concat_beamer_files]:
    [lambda x: int(re.search(r"_page_(\d+)\.tex", x).group(1))].
    Calling [.group] on [None] raises [AttributeError]. *)
Definition page_key (x : string) : result nat :=
  match re_search_page x with
  | None => Raise AttributeError
  | Some ds => int ds
  end.

(** [re.sub(pat, "", s)] for a pattern [pat] without metacharacters: the
    occurrences of [pat] are found from the left, without overlap, and
    deleted.  [skip] counts the characters of the current occurrence that
    are still to be dropped. *)
Fixpoint re_sub_go (pat : string) (skip : nat) (s : string) : string :=
  match s with
  | "" => ""
  | String c s' =>
      match skip with
      | S k => re_sub_go pat k s'
      | 0 =>
          if String.prefix pat s
          then re_sub_go pat (String.length pat - 1) s'
          else String c (re_sub_go pat 0 s')
      end
  end.

Definition re_sub_delete (pat s : string) : string := re_sub_go pat 0 s.

(** For reference, what deleting delimiters means, independently of how
    [re.sub] scans: [pat] occurs in [s]; and [r] is [s] with every
    occurrence of [pat] deleted, the occurrences being taken from the left
    and not overlapping: an occurrence at the head is cut out, a character
    at which none starts is kept in its place. *)
Definition occurs (pat s : string) : Prop :=
  ∃ a b, s = a +:+ pat +:+ b.

Inductive deleted (pat : string) : string → string → Prop :=
  | deleted_nil : deleted pat "" ""
  | deleted_cut s r :
      deleted pat s r → deleted pat (pat +:+ s) r
  | deleted_keep c s r :
      String.prefix pat (String c s) = false →
      deleted pat s r → deleted pat (String c s) (String c r).

(** [pat in s], computed. *)
Fixpoint occursb (pat s : string) : bool :=
  String.prefix pat s ||
  match s with
  | "" => false
  | String _ s' => occursb pat s'
  end.

(** The number of backquotes [s] starts with. *)
Fixpoint leading_backquotes (s : string) : nat :=
  match s with
  | "" => 0
  | String c s' => if Ascii.eqb c "`" then S (leading_backquotes s') else 0
  end.

(** For reference: a string made of digits only. *)
Fixpoint all_digits (s : string) : bool :=
  match s with
  | "" => true
  | String c s' => is_digit c && all_digits s'
  end.

(** For reference: the page number the sort key reads in a path, 0 when
    the key raises. *)
Definition page_number (x : string) : nat :=
  match page_key x with
  | Ok n => n
  | Raise _ => 0
  end.

(** ** [sorted(xs, key=f)]

    Python computes every key first, in list order (the first failing key
    raises), then sorts stably on the keys.  The stable sort is written as
    an insertion sort over the decorated list: an element goes in front of
    the first later element whose key is not smaller. *)
Section Sorted.
Context {A : Type}.

Fixpoint insert_by_key (x : nat * A) (l : list (nat * A)) : list (nat * A) :=
  match l with
  | [] => [x]
  | y :: l' =>
      if (x.1 <=? y.1)%nat then x :: y :: l' else y :: insert_by_key x l'
  end.

Definition sort_by_key (l : list (nat * A)) : list (nat * A) :=
  foldr insert_by_key [] l.

Fixpoint decorate (key : A → result nat) (xs : list A) : result (list (nat * A)) :=
  match xs with
  | [] => Ok []
  | x :: xs' =>
      match key x with
      | Raise e => Raise e
      | Ok k =>
          match decorate key xs' with
          | Raise e => Raise e
          | Ok l => Ok ((k, x) :: l)
          end
      end
  end.

Definition sorted (key : A → result nat) (xs : list A) : result (list A) :=
  match decorate key xs with
  | Raise e => Raise e
  | Ok l => Ok (map snd (sort_by_key l))
  end.
End Sorted.

(* ================================================================== *)
(** * Part II. Files, standard output and effects *)
(* ================================================================== *)

(** What a run can change: the files, keyed by path, and the lines printed
    to standard output. *)
Record World : Type := mkWorld {
  files : gmap string string;
  stdout : list string
}.

(** A computation reads and changes the world and returns or raises; the
    changes made before an exception stay made. *)
Definition M (A : Type) : Type := World → World * result A.

#[global] Instance M_ret : MRet M := λ A a w, (w, Ok a).
#[global] Instance M_bind : MBind M := λ A B f m w,
  match m w with
  | (w', Ok a) => f a w'
  | (w', Raise e) => (w', Raise e)
  end.

(** An expression without effects, evaluated inside a computation. *)
Definition lift {A} (r : result A) : M A := λ w, (w, r).

(** [print(line)] *)
Definition print (line : string) : M () :=
  λ w, (mkWorld (files w) (stdout w ++ [line]), Ok ()).

(** [open(path, "w")] where the open succeeds: the file is created or
    truncated when it is opened, before anything is written. *)
Definition open_w (path : string) : M () :=
  λ w, (mkWorld (<[path := ""]> (files w)) (stdout w), Ok ()).

(** [f.write(data)] on a file opened for writing: [data] goes after what
    has been written so far. *)
Definition write (path data : string) : M () :=
  λ w, (mkWorld (<[path := default "" (files w !! path) +:+ data]> (files w))
                (stdout w), Ok ()).

(** [open(path, "rb").read()]: the bytes of the file. *)
Definition read (path : string) : M string :=
  λ w, (w, match files w !! path with
           | Some c => Ok c
           | None => Raise FileNotFoundError
           end).

(** [open(path, "r", encoding="utf-8", errors="replace").read()]: the text
    of the file, its line ends translated. *)
Definition read_text (path : string) : M string :=
  λ w, (w, match files w !! path with
           | Some c => Ok (universal_newlines c)
           | None => Raise FileNotFoundError
           end).

(** For reference: the texts of the files [paths] as they are read in text
    mode, each followed by a newline, one after the other. *)
Definition artifact_bodies (fs : gmap string string) (paths : list string) : string :=
  foldr (λ p acc, universal_newlines (default "" (fs !! p)) +:+ nl +:+ acc) "" paths.

(** For reference: [w'] differs from [w] at most in the files whose paths
    are [touched], and has the same standard output. *)
Definition keeps (touched : string → Prop) (w w' : World) : Prop :=
  stdout w' = stdout w ∧ ∀ p, ¬ touched p → files w' !! p = files w !! p.

(** For reference: a computation that prints nothing and writes only
    [touched] files, whether it returns or raises. *)
Definition framed {A} (touched : string → Prop) (m : M A) : Prop :=
  ∀ w, keeps touched w (m w).1.

(** [for x in xs: body] *)
Fixpoint for_each {A} (xs : list A) (body : A → M ()) : M () :=
  match xs with
  | [] => mret ()
  | x :: xs' => body x ;; for_each xs' body
  end.

(** The loop that appends one value per element to a list. *)
Fixpoint for_collect {A B} (xs : list A) (body : A → M B) : M (list B) :=
  match xs with
  | [] => mret []
  | x :: xs' => y ← body x; ys ← for_collect xs' body; mret (y :: ys)
  end.

(** [enumerate(xs)] *)
Definition enumerate {A} (xs : list A) : list (nat * A) := imap pair xs.

(** The successive worlds a sequence of steps goes through, one per step
    that completes: what an observer of the file system can see while the
    sequence runs. *)
Fixpoint worlds_through (steps : list (M ())) (w : World) : list World :=
  match steps with
  | [] => []
  | step :: steps' =>
      match step w with
      | (w', Ok _) => w' :: worlds_through steps' w'
      | (w', Raise _) => [w']
      end
  end.

(* ================================================================== *)
(** * Part III. [pdf-to-beamer.py] *)
(* ================================================================== *)

(** ** Data *)

(** One entry of [page.get_text("blocks")]: the 7-tuple
    [(x0, y0, x1, y1, text, _, _)] without the two ignored fields.  The
    coordinates are PyMuPDF's: the origin is the top-left corner of the
    page and [y] grows downwards, so [(x0, y0)] is the top-left and
    [(x1, y1)] the bottom-right corner of the block; [y0 = 0] is a block
    that touches the top edge of the page and [y1 = page.rect.height] one
    that touches the bottom edge. *)
Record Block : Type := mkBlock {
  x0 : Qc; y0 : Qc; x1 : Qc; y1 : Qc;
  text : string
}.

(** One page as PyMuPDF presents it: its text blocks, the xrefs of its
    embedded images ([img[0]] of each entry of [page.get_images()]) and
    [page.rect.width], [page.rect.height]. *)
Record Page : Type := mkPage {
  text_blocks : list Block;
  images : list nat;
  rect_width : Qc;
  rect_height : Qc
}.

(** The dictionary [doc.extract_image(xref)] returns, reduced to the two
    entries read: ["image"] and ["ext"]. *)
Record BaseImage : Type := mkBaseImage {
  img_bytes : string;
  img_ext : string
}.

(** An opened document: [len(doc)] is [length (pages doc)]. *)
Record Document : Type := mkDocument {
  pages : list Page;
  extract_image : nat → result BaseImage
}.

(** The dictionary appended to [text_elements]. *)
Record TextElement : Type := mkTextElement {
  te_text : string;
  te_x : Qc;
  te_y : Qc;
  te_width : Qc
}.

(** The dictionary appended to [content]. *)
Record PageData : Type := mkPageData {
  page_num : nat;
  pd_text : list TextElement;
  pd_images : list string;
  dimensions : Qc * Qc
}.

(** The collaborators of the scripts, outside the embedding:
    - [fitz_open]: [fitz.open(path)];
    - [convert_from_path]: pdf2image's function, each image given as the
      JPEG bytes that [image.save(path, "JPEG")] writes;
    - [b64encode]: [base64.b64encode(data).decode("utf-8")];
    - [chat_completion]: the OpenAI request of [generate_beamer_frame] for
      a page and its rendering, returning
      [response.choices[0].message.content];
    - [get_pixmap]: the PNG bytes of [doc.load_page(i).get_pixmap(dpi)];
    - [os_listdir_outcome]: [os.listdir(dir)] on the current files: the
      names, in whatever order the file system yields them, or the
      exception raised ([FileNotFoundError] when the directory does not
      exist);
    - [os_open]: what the operating system answers when [path] is opened
      for writing on the current files: it opens the file, or raises
      ([FileNotFoundError] when the directory of [path] does not exist);
    - [os_path_isfile]: [Path(path).is_file()];
    - [os_makedirs]: [os.makedirs(dir, exist_ok=True)], which creates no
      file and may raise. *)
Record Collaborators : Type := mkCollaborators {
  fitz_open : string → result Document;
  convert_from_path : string → nat → nat → result (list string);
  b64encode : string → string;
  chat_completion : PageData → string → result string;
  get_pixmap : Document → nat → nat → result string;
  os_listdir_outcome : gmap string string → string → result (list string);
  os_open : gmap string string → string → result ();
  os_path_isfile : gmap string string → string → bool;
  os_makedirs : gmap string string → string → result ()
}.

(** The names [os.listdir(dir)] returns; none when it raises. *)
Definition os_listdir (env : Collaborators) (fs : gmap string string)
    (dir : string) : list string :=
  match os_listdir_outcome env fs dir with
  | Ok names => names
  | Raise _ => []
  end.

Definition preamble : string :=
  "\documentclass{beamer}" +:+ nl +:+
  "    \usepackage{textpos}" +:+ nl +:+
  "    \usepackage{graphicx}" +:+ nl +:+
  "    \begin{document}" +:+ nl +:+
  "    ".

Definition postamble : string := "\end{document}".

Section Scripts.
(** Float arithmetic: [rnd] maps the exact result of an operation to the
    float that represents it. *)
Variable rnd : Qc → Qc.
Variable env : Collaborators.

(** ** GeometryNormalizer (lines 41-47 of [extract_pdf_content]) *)

(** [a / b] on floats. *)
Definition truediv (a b : Qc) : result Qc :=
  if decide (b = 0%Qc) then Raise ZeroDivisionError else Ok (rnd (a / b)%Qc).

(** [a - b] on floats. *)
Definition fsub (a b : Qc) : Qc := rnd (a - b)%Qc.

(** The dictionary built from one block, its entries evaluated in the
    order in which they are written. *)
Definition normalize_block (block : Block) (width height : Qc) : result TextElement :=
  match truediv (x0 block) width with
  | Raise e => Raise e
  | Ok x =>
      match truediv (y1 block) height with
      | Raise e => Raise e
      | Ok q =>
          match truediv (fsub (x1 block) (x0 block)) width with
          | Raise e => Raise e
          | Ok wd =>
              Ok {| te_text := strip (text block);
                    te_x := x;
                    te_y := fsub 1 q;
                    te_width := wd |}
          end
      end
  end.

(** ** Opening a file of a directory the caller provides

    [extract_pdf_content] writes into [images_dir] and
    [concat_beamer_files] lists [output_dir] and writes [output_file]
    without creating any directory: the open succeeds or raises as the
    operating system answers, and a file that does not open is neither
    created nor truncated. *)
Definition open_for_writing (path : string) : M () :=
  λ w, match os_open env (files w) path with
       | Ok _ => open_w path w
       | Raise e => (w, Raise e)
       end.

(** ** PageExtractor: [extract_pdf_content] *)

Definition extract_page_image (doc : Document) (images_dir : string)
    (page_num : nat) (entry : nat * nat) : M string :=
  let '(img_index, xref) := entry in
  base_image ← lift (extract_image doc xref);
  let img_name := "page_" +:+ str (page_num + 1) +:+ "_image_" +:+
                  str img_index +:+ "." +:+ img_ext base_image in
  let img_path := os_path_join images_dir img_name in
  open_for_writing img_path;;
  write img_path (img_bytes base_image);;
  mret img_path.

Definition extract_page (doc : Document) (images_dir : string)
    (entry : nat * Page) : M PageData :=
  let '(page_num, page) := entry in
  img_paths ← for_collect (enumerate (images page))
                (extract_page_image doc images_dir page_num);
  text_elements ← for_collect (text_blocks page) (λ block,
                    lift (normalize_block block (rect_width page) (rect_height page)));
  mret {| page_num := page_num;
          pd_text := text_elements;
          pd_images := img_paths;
          dimensions := (rect_width page, rect_height page) |}.

Definition extract_pdf_content (pdf_path images_dir : string) : M (list PageData) :=
  doc ← lift (fitz_open env pdf_path);
  for_collect (enumerate (pages doc)) (extract_page doc images_dir).

(** ** PageRasterizer: [convert_page_to_image] *)

(** [os.path.join(output_dir, f"page_{page_num + 1}.jpg")] *)
Definition page_image_path (output_dir : string) (page_num : nat) : string :=
  os_path_join output_dir ("page_" +:+ str (page_num + 1) +:+ ".jpg").

Definition convert_page_to_image (pdf_path : string) (page_num : nat)
    (output_dir : string) : M string :=
  images ← lift (convert_from_path env pdf_path (page_num + 1) (page_num + 1));
  let image_path := page_image_path output_dir page_num in
  match images with
  | [] => lift (Raise IndexError)
  | image :: _ =>
      open_w image_path;;
      write image_path image;;
      data ← read image_path;
      mret (b64encode env data)
  end.

(** ** ContentGenerator: [generate_beamer_frame] *)

Definition generate_beamer_frame (page_data : PageData) (base64_image : string) : M string :=
  lift (chat_completion env page_data base64_image).

(** ** ArtifactWriter: [create_latex_document] *)

(** The two [re.sub] calls. *)
Definition clean_frame (frame : string) : string :=
  re_sub_delete "```" (re_sub_delete "```latex" frame).

(** The file operations of the [with] block, in order: the open, which
    truncates, then the single write. *)
Definition create_latex_document_steps (frame output_file : string) : list (M ()) :=
  [ open_w output_file;
    write output_file (clean_frame frame +:+ nl) ].

Definition create_latex_document (frame output_file : string) : M () :=
  for_each (create_latex_document_steps frame output_file) id.

(** ** SequenceAssembler: [concat_beamer_files] *)

Definition listdir (dir : string) : M (list string) :=
  λ w, (w, os_listdir_outcome env (files w) dir).

(** [[os.path.join(output_dir, f) for f in names if f.endswith(".tex")]] *)
Definition tex_files (output_dir : string) (names : list string) : list string :=
  os_path_join output_dir <$> filter (λ f, endswith f ".tex") names.

Definition concat_beamer_files (output_dir output_file : string) : M () :=
  names ← listdir output_dir;
  beamer_files ← lift (sorted page_key (tex_files output_dir names));
  open_for_writing output_file;;
  write output_file (preamble +:+ nl);;
  for_each beamer_files (λ beamer_file,
    c ← read_text beamer_file;
    write output_file (c +:+ nl));;
  write output_file (postamble +:+ nl).

(** ** PipelineDriver: [main] *)

(** [pdf_path.split("\\")[-1].split('.')[0]] *)
Definition file_name_of (pdf_path : string) : string :=
  split_first "." (split_last "\" pdf_path).

(** [f'{file_name}_beamers/{file_name}_page_{i}.tex'] *)
Definition artifact_path (file_name : string) (i : nat) : string :=
  file_name +:+ "_beamers/" +:+ file_name +:+ "_page_" +:+ str i +:+ ".tex".

(** The two lines printed for a processed page. *)
Definition processed_line (page_data : PageData) : string :=
  "Processed page " +:+ str (page_num page_data + 1).

Definition created_line (file_name : string) (i : nat) : string :=
  "LaTeX Beamer file created: " +:+ artifact_path file_name i.

(** The body of the [for] loop of [main]; [continue] ends the body. *)
Definition main_body (pdf_path file_name : string) (entry : nat * PageData) : M () :=
  let '(i, page_data) := entry in
  if (i <=? 27)%nat then mret ()
  else
    base64_img ← convert_page_to_image pdf_path (page_num page_data)
                   (file_name +:+ "_temp");
    frame_code ← generate_beamer_frame page_data base64_img;
    print (processed_line page_data);;
    let output_beamer_file := artifact_path file_name i in
    create_latex_document frame_code output_beamer_file;;
    print (created_line file_name i).

Definition main (pdf_path : string) : M () :=
  let file_name := file_name_of pdf_path in
  content ← extract_pdf_content pdf_path (file_name +:+ "_images");
  for_each (enumerate content) (main_body pdf_path file_name);;
  let output_beamer_file := file_name +:+ "_full.tex" in
  concat_beamer_files (file_name +:+ "_beamers") output_beamer_file;;
  print ("Concatenated LaTeX Beamer file created: " +:+ output_beamer_file).

(** For reference: what the loop of [main] prints for a list of
    enumerated pages when every processed page succeeds. *)
Definition loop_log (file_name : string) (entries : list (nat * PageData)) : list string :=
  entries ≫= λ entry,
    if (entry.1 <=? 27)%nat then []
    else [processed_line entry.2; created_line file_name entry.1].

(** For reference: the page is rendered and the generator answers [r] for
    it and its rendering. *)
Definition generates (pdf_path : string) (page_data : PageData) (r : result string) : Prop :=
  ∃ image rest,
    convert_from_path env pdf_path (page_num page_data + 1) (page_num page_data + 1)
      = Ok (image :: rest) ∧
    chat_completion env page_data (b64encode env image) = r.

(* ================================================================ *)
(** * Part IV. [pdf-to-image.py] *)
(* ================================================================ *)

(** The name given to the image of page [i] (0-based) of a document of
    [page_count] pages:
    [f"{str(i + 1).zfill(zfill_width)}.png"] with
    [zfill_width = len(str(page_count))]. *)
Definition image_name (page_count i : nat) : string :=
  zfill (str (i + 1)) (String.length (str page_count)) +:+ ".png".

(** The body of the [for] loop (step 4). *)
Definition save_page_image (doc : Document) (output_dir : string) (dpi : nat)
    (page_count i : nat) : M () :=
  pix ← lift (get_pixmap env doc i dpi);
  let output_file_path := os_path_join output_dir (image_name page_count i) in
  open_w output_file_path;;
  write output_file_path pix.

(** The body of the [try] block (steps 3 and 4). *)
Definition convert_pages (pdf_path output_dir : string) (dpi : nat) : M () :=
  doc ← lift (fitz_open env pdf_path);
  let page_count := length (pages doc) in
  if (page_count =? 0)%nat
  then print "⚠️ The PDF appears to be empty."
  else
    print ("📄 Converting " +:+ str page_count +:+ " pages...");;
    for_each (seq 0 page_count) (save_page_image doc output_dir dpi page_count);;
    print (nl +:+ "🎉 Conversion complete! All " +:+ str page_count +:+ " pages saved.").

(** [str(e)] for an exception raised inside a collaborator, which carries
    its message; the message of the other exceptions is not modelled. *)
Definition exn_message (e : exn) : string :=
  match e with
  | CollaboratorError msg => msg
  | _ => ""
  end.

(** [convert_pdf_to_numbered_images] from step 3 on (lines 30-59): steps 1
    and 2, which are in [PdfToImage.convert_pdf_to_numbered_images] below,
    have validated [pdf_path] and computed and created [output_dir].
    [except Exception] does not catch [SystemExit]. *)
Definition convert_pdf_to_numbered_images (pdf_path output_dir : string) (dpi : nat) : M () :=
  λ w,
    match convert_pages pdf_path output_dir dpi w with
    | (w', Ok _) => (w', Ok ())
    | (w', Raise (SystemExit c)) => (w', Raise (SystemExit c))
    | (w', Raise e) =>
        (print ("❗️ An error occurred while processing the PDF: " +:+ exn_message e);;
         lift (Raise (SystemExit 1))) w'
    end.

End Scripts.

(** The whole function, from its argument [pdf_path_str]: step 1 validates
    the path, step 2 computes and creates the output directory and prints
    two lines, and the processing of steps 3 and 4 follows. *)
Module PdfToImage.

Definition is_file (env : Collaborators) (path : string) : M bool :=
  λ w, (w, Ok (os_path_isfile env (files w) path)).

Definition makedirs (env : Collaborators) (dir : string) : M () :=
  λ w, (w, os_makedirs env (files w) dir).

(** [os.path.join(os.path.dirname(pdf_path), f"{pdf_path.stem}_images")] *)
Definition output_dir_of (pdf_path_str : string) : string :=
  os_path_join (dirname (path_str pdf_path_str))
    (path_stem pdf_path_str +:+ "_images").

Definition convert_pdf_to_numbered_images (env : Collaborators)
    (pdf_path_str : string) (dpi : nat) : M () :=
  let pdf_path := path_str pdf_path_str in
  a_file ← is_file env pdf_path;
  if negb a_file || negb (String.eqb (lower (path_suffix pdf_path_str)) ".pdf")
  then
    print ("❌ Error: The path '" +:+ pdf_path +:+ "' is not a valid PDF file.");;
    lift (Raise (SystemExit 1))
  else
    let output_dir := output_dir_of pdf_path_str in
    makedirs env output_dir;;
    print ("✅ Input PDF: '" +:+ path_name pdf_path_str +:+ "'");;
    print ("📂 Output will be saved in: " +:+ output_dir);;
    convert_pdf_to_numbered_images env pdf_path output_dir dpi.

End PdfToImage.

(* ================================================================== *)
(** * Example inputs *)
(* ================================================================== *)

(** A page with one text block and the given embedded images. *)
Definition example_page (xrefs : list nat) : Page :=
  mkPage [mkBlock 1 (Q2Qc 2) (Q2Qc 3) (Q2Qc 4) "title"] xrefs (Q2Qc 10) (Q2Qc 20).

(** An inexact arithmetic: results are rounded down to a multiple of
    1/1024. *)
Definition round_grid (q : Qc) : Qc :=
  Q2Qc (Qfloor (Qmult (this q) (1024 # 1)) # 1024).

(** Collaborators that open [doc] whatever the path, render page [n] as
    the bytes [JPEG n], leave base64 aside, answer [chat] and list [names]
    in every directory. *)
Definition example_collaborators (doc : Document)
    (chat : PageData → string → result string) (names : list string) : Collaborators :=
  {| fitz_open := λ _, Ok doc;
     convert_from_path := λ _ first _, Ok ["JPEG " +:+ str first];
     b64encode := λ data, data;
     chat_completion := chat;
     get_pixmap := λ _ _ _, Ok "PNG";
     os_listdir_outcome := λ _ _, Ok names;
     os_open := λ _ _, Ok ();
     os_path_isfile := λ _ _, true;
     os_makedirs := λ _ _, Ok () |}.

(** A generator that wraps the frame of page [n] in a code fence. *)
Definition example_chat (page_data : PageData) (base64_image : string) : result string :=
  Ok ("```latex" +:+ nl +:+ "frame " +:+ str (page_num page_data) +:+ nl +:+ "```").

Definition empty_document : Document :=
  mkDocument [] (λ _, Raise (CollaboratorError "no such image")).

(** An artifact directory with the artifacts of pages 28 and 29. *)
Definition example_artifacts : World :=
  mkWorld (<["lec_beamers/lec_page_28.tex" := "frame 28"]>
             (<["lec_beamers/lec_page_29.tex" := "frame 29"]> ∅)) [].



(** A one-page document whose page embeds two images; the first decodes,
    the second does not. *)
Definition example_broken_image : Document :=
  mkDocument [example_page [7; 8]]
    (λ xref, if decide (xref = 7) then Ok (mkBaseImage "PNG bytes" "png")
             else Raise (CollaboratorError "broken image")).

(** A document of [n] pages without embedded images. *)
Definition example_document (n : nat) : Document :=
  mkDocument (replicate n (example_page []))
    (λ _, Raise (CollaboratorError "no such image")).


(** An artifact directory with the artifacts of pages 0 and 1. *)
Definition example_resume : World :=
  mkWorld (<["lec_beamers/lec_page_0.tex" := "frame 0"]>
             (<["lec_beamers/lec_page_1.tex" := "frame 1"]> ∅)) [].

(** A run on a 30-page document, every page generated, started on the
    directory [example_resume]; and the same with the generator failing on
    the page of index [p]. *)
Definition example_env : Collaborators :=
  example_collaborators (example_document 30) example_chat
    ["lec_page_0.tex"; "lec_page_1.tex"; "lec_page_28.tex"; "lec_page_29.tex"].


Definition example_pdf_path : string := "C:\slides\lec.pdf".

(** What the extraction returns in these runs. *)
Definition example_content : list PageData :=
  match (extract_pdf_content id example_env example_pdf_path "lec_images"
           example_resume).2 with
  | Ok content => content
  | Raise _ => []
  end.


(** Two-page documents whose second page has no size: without any text
    block, and with one. *)
Definition example_blank_page : Document :=
  mkDocument [example_page []; mkPage [] [] 0%Qc 0%Qc]
    (λ _, Raise (CollaboratorError "no such image")).

Definition example_zero_width : Document :=
  mkDocument
    [example_page [];
     mkPage [mkBlock 1 (Q2Qc 2) (Q2Qc 3) (Q2Qc 4) "title"] [] 0%Qc (Q2Qc 20)]
    (λ _, Raise (CollaboratorError "no such image")).

(** A run on the 30-page document in an empty directory; at assembly time
    the directory lists the two artifacts of the run, and some notes. *)
Definition example_env_fresh : Collaborators :=
  example_collaborators (example_document 30) example_chat
    ["lec_page_29.tex"; "notes.txt"; "lec_page_28.tex"].

(** A run on a three-page document whose generator always fails. *)
Definition example_env_short : Collaborators :=
  example_collaborators (example_document 3)
    (λ _ _, Raise (CollaboratorError "quota exceeded")) [].

(** Collaborators of [pdf-to-image.py] for a document whose page [k]
    cannot be rendered. *)
Definition example_env_unrenderable (doc : Document) (k : nat) : Collaborators :=
  {| fitz_open := λ _, Ok doc;
     convert_from_path := λ _ first _, Ok ["JPEG " +:+ str first];
     b64encode := λ data, data;
     chat_completion := example_chat;
     get_pixmap := λ _ i _,
       if decide (i = k) then Raise (CollaboratorError "cannot render")
       else Ok ("PNG " +:+ str i);
     os_listdir_outcome := λ _ _, Ok [];
     os_open := λ _ _, Ok ();
     os_path_isfile := λ _ _, true;
     os_makedirs := λ _ _, Ok () |}.

(** Collaborators for a file that does not open. *)
Definition example_env_unopenable : Collaborators :=
  {| fitz_open := λ _, Raise (CollaboratorError "cannot open broken document");
     convert_from_path := λ _ first _, Ok ["JPEG " +:+ str first];
     b64encode := λ data, data;
     chat_completion := example_chat;
     get_pixmap := λ _ _ _, Ok "PNG";
     os_listdir_outcome := λ _ _, Ok [];
     os_open := λ _ _, Ok ();
     os_path_isfile := λ _ _, true;
     os_makedirs := λ _ _, Ok () |}.

(** The collaborators [c] on a file system in which the directory [dir]
    does not exist: it cannot be listed, and no file below it can be
    opened for writing. *)
Definition example_missing_dir (c : Collaborators) (dir : string) : Collaborators :=
  {| fitz_open := fitz_open c;
     convert_from_path := convert_from_path c;
     b64encode := b64encode c;
     chat_completion := chat_completion c;
     get_pixmap := get_pixmap c;
     os_listdir_outcome := λ fs d,
       if String.eqb d dir then Raise FileNotFoundError
       else os_listdir_outcome c fs d;
     os_open := λ fs path,
       if String.prefix (dir +:+ "/") path then Raise FileNotFoundError
       else os_open c fs path;
     os_path_isfile := os_path_isfile c;
     os_makedirs := os_makedirs c |}.

(** A one-page document whose page embeds two images that decode. *)
Definition example_two_images : Document :=
  mkDocument [example_page [7; 8]] (λ _, Ok (mkBaseImage "PNG bytes" "png")).

(* ================================================================== *)
(** * Part V. Properties *)
(* ================================================================== *)

Open Scope nat_scope.
Open Scope list_scope.

(** ** Strings *)

Lemma str_app_nil_l (s : string) : "" +:+ s = s.
Proof. reflexivity. Qed.

Lemma str_app_cons (c : ascii) (s t : string) :
  String c s +:+ t = String c (s +:+ t).
Proof. reflexivity. Qed.

(** Appending does not unfold under [simpl]; [str_simpl] pushes it
    through the constructors first. *)
Ltac str_simpl := simpl; rewrite ?str_app_cons, ?str_app_nil_l; simpl.

Lemma str_app_nil_r (s : string) : s +:+ "" = s.
Proof. induction s as [|c s IH]; str_simpl; [done | by f_equal]. Qed.

Lemma str_app_assoc (s t u : string) : (s +:+ t) +:+ u = s +:+ (t +:+ u).
Proof. induction s as [|c s IH]; str_simpl; [done | by f_equal]. Qed.

Lemma str_length_app (s t : string) :
  String.length (s +:+ t) = String.length s + String.length t.
Proof. induction s as [|c s IH]; str_simpl; [done | by f_equal]. Qed.

Lemma compare_refl (s : string) : String.compare s s = Eq.
Proof.
  induction s as [|c s IH]; simpl; [done |].
  unfold Ascii.compare. by rewrite N.compare_refl.
Qed.

(** Two strings that start with parts of the same length compare by those
    parts first. *)
Lemma compare_app (s1 s2 t1 t2 : string) :
  String.length s1 = String.length s2 →
  String.compare (s1 +:+ t1) (s2 +:+ t2) =
    match String.compare s1 s2 with
    | Eq => String.compare t1 t2
    | r => r
    end.
Proof.
  revert s2. induction s1 as [|c1 s1 IH]; intros [|c2 s2] Hlen;
    str_simpl; simpl in Hlen; try done.
  destruct (Ascii.compare c1 c2); try done.
  apply IH. lia.
Qed.

Lemma replicate_chr_snoc (n : nat) (c : ascii) :
  replicate_chr n c +:+ String c "" = String c (replicate_chr n c).
Proof. induction n as [|n IH]; str_simpl; [done | by f_equal]. Qed.

Lemma length_replicate_chr (n : nat) (c : ascii) :
  String.length (replicate_chr n c) = n.
Proof. induction n as [|n IH]; simpl; [done | by f_equal]. Qed.

(** ** Decimal numerals *)

Lemma digit_chr_lt (a b : nat) :
  a < b → b < 10 → Ascii.compare (digit_chr a) (digit_chr b) = Lt.
Proof.
  intros Hab Hb.
  do 10 (destruct b as [|b];
    [ do 10 (destruct a as [|a]; [ first [ lia | reflexivity ] | ]); lia | ]).
  lia.
Qed.

Lemma str_go_S (fuel n : nat) (acc : string) :
  str_go (S fuel) n acc =
    if (n <? 10)%nat then String (digit_chr (n mod 10)) acc
    else str_go fuel (n / 10) (String (digit_chr (n mod 10)) acc).
Proof. reflexivity. Qed.

Lemma str_go_acc (fuel n : nat) (acc : string) :
  str_go fuel n acc = str_go fuel n "" +:+ acc.
Proof.
  revert n acc. induction fuel as [|fuel IH]; intros n acc; [done |].
  rewrite !str_go_S. destruct (n <? 10)%nat; [done |].
  rewrite IH. rewrite (IH _ (String _ "")). by rewrite str_app_assoc.
Qed.

Lemma str_go_fuel (fuel n : nat) (acc : string) :
  n < fuel → str_go fuel n acc = str_go (S n) n acc.
Proof.
  revert fuel acc. induction (lt_wf n) as [n _ IH]. intros fuel acc Hfuel.
  destruct fuel as [|fuel]; [lia |]. rewrite !str_go_S.
  destruct (Nat.ltb_spec n 10) as [Hn|Hn]; [done |].
  assert (n / 10 < n) by (apply Nat.div_lt; lia).
  rewrite (IH (n / 10)) by lia.
  symmetry. apply IH; lia.
Qed.

Lemma str_small (n : nat) : n < 10 → str n = String (digit_chr n) "".
Proof.
  intros Hn. unfold str. rewrite str_go_S.
  destruct (Nat.ltb_spec n 10); [| lia]. by rewrite Nat.mod_small.
Qed.

Lemma str_step (n : nat) :
  10 ≤ n → str n = str (n / 10) +:+ String (digit_chr (n mod 10)) "".
Proof.
  intros Hn. unfold str at 1. rewrite str_go_S.
  destruct (Nat.ltb_spec n 10); [lia |].
  rewrite str_go_acc. f_equal.
  apply str_go_fuel. apply Nat.div_lt; lia.
Qed.

(** A numeral starts with a digit, never with a sign. *)
Lemma str_head (n : nat) :
  ∃ d s, d < 10 ∧ str n = String (digit_chr d) s.
Proof.
  induction (lt_wf n) as [n _ IH].
  destruct (Nat.lt_ge_cases n 10) as [Hn|Hn].
  - exists n, "". by rewrite str_small.
  - destruct (IH (n / 10)) as (d & s & Hd & Hs); [apply Nat.div_lt; lia |].
    exists d, (s +:+ String (digit_chr (n mod 10)) "").
    by rewrite str_step, Hs.
Qed.

Lemma str_length_pos (n : nat) : 1 ≤ String.length (str n).
Proof. destruct (str_head n) as (d & s & _ & ->). simpl. lia. Qed.

(** [n] has at most [len(str(n))] digits. *)
Lemma str_upper (n : nat) : n < 10 ^ String.length (str n).
Proof.
  induction (lt_wf n) as [n _ IH].
  destruct (Nat.lt_ge_cases n 10) as [Hn|Hn].
  - rewrite str_small by done. simpl. lia.
  - rewrite str_step, str_length_app by done. cbn [String.length].
    assert (n / 10 < 10 ^ String.length (str (n / 10)))
      by (apply IH, Nat.div_lt; lia).
    rewrite Nat.add_1_r, Nat.pow_succ_r'.
    set (X := 10 ^ _) in *. clearbody X.
    pose proof (Nat.div_mod_eq n 10).
    pose proof (Nat.mod_upper_bound n 10). lia.
Qed.

Lemma dec_S (w m : nat) :
  dec (S w) m = dec w (m / 10) +:+ String (digit_chr (m mod 10)) "".
Proof. reflexivity. Qed.

Lemma length_dec (w m : nat) : String.length (dec w m) = w.
Proof.
  revert m. induction w as [|w IH]; intros m; [done |].
  rewrite dec_S, str_length_app, IH. cbn [String.length]. lia.
Qed.

Lemma dec_zero (w : nat) : dec w 0 = replicate_chr w "0".
Proof.
  induction w as [|w IH]; [done |].
  rewrite dec_S. change (0 / 10) with 0. change (0 mod 10) with 0.
  rewrite IH. apply replicate_chr_snoc.
Qed.

Lemma str_pad_dec (w m : nat) :
  m < 10 ^ w → 1 ≤ w →
  String.length (str m) ≤ w ∧
  replicate_chr (w - String.length (str m)) "0" +:+ str m = dec w m.
Proof.
  revert m. induction w as [|w IH]; intros m Hm Hw; [lia |].
  rewrite Nat.pow_succ_r' in Hm.
  destruct (Nat.lt_ge_cases m 10) as [Hsmall|Hbig].
  - rewrite str_small by done. cbn [String.length].
    split; [lia |].
    replace (S w - 1) with w by lia. rewrite !dec_S.
    rewrite Nat.div_small, Nat.mod_small by done.
    by rewrite dec_zero.
  - assert (m / 10 < 10 ^ w) as Hdiv.
    { apply Nat.Div0.div_lt_upper_bound. lia. }
    assert (1 ≤ m / 10) as Hpos by (apply Nat.div_le_lower_bound; lia).
    assert (1 ≤ w) as Hw'.
    { destruct w; [| lia]. rewrite Nat.pow_0_r in Hdiv. lia. }
    destruct (IH _ Hdiv Hw') as [Hlen Heq].
    rewrite str_step, str_length_app by done. cbn [String.length].
    split; [lia |].
    rewrite !dec_S. rewrite <- Heq, str_app_assoc.
    do 2 f_equal. lia.
Qed.

(** [zfill] on a numeral that fits the width. *)
Lemma zfill_str (w m : nat) :
  1 ≤ w → m < 10 ^ w → zfill (str m) w = dec w m.
Proof.
  intros Hw Hm. destruct (str_pad_dec w m Hm Hw) as [Hlen Heq].
  rewrite <- Heq. unfold zfill.
  destruct (Nat.leb_spec w (String.length (str m))) as [Hle|Hgt].
  - replace (w - String.length (str m)) with 0 by lia. done.
  - destruct (str_head m) as (d & s & Hd & Hs). rewrite Hs in *.
    replace (Ascii.eqb (digit_chr d) "+" || Ascii.eqb (digit_chr d) "-")%bool
      with false; [done |].
    do 10 (destruct d as [|d]; [done |]). lia.
Qed.

(** On numerals of one width, the order of the strings is the order of the
    numbers. *)
Lemma dec_lt (w a b : nat) :
  a < b → b < 10 ^ w → String.compare (dec w a) (dec w b) = Lt.
Proof.
  revert a b. induction w as [|w IH]; intros a b Hab Hb.
  - rewrite Nat.pow_0_r in Hb. lia.
  - rewrite !dec_S, compare_app by (by rewrite !length_dec).
    rewrite Nat.pow_succ_r' in Hb.
    assert (b / 10 < 10 ^ w) as Hdiv
      by (apply Nat.Div0.div_lt_upper_bound; exact Hb).
    pose proof (Nat.div_mod_eq a 10) as Ha10.
    pose proof (Nat.div_mod_eq b 10) as Hb10.
    assert (a mod 10 < 10) as Hma by (apply Nat.mod_upper_bound; lia).
    assert (b mod 10 < 10) as Hmb by (apply Nat.mod_upper_bound; lia).
    clear Hb. revert Hdiv IH Ha10 Hb10 Hma Hmb.
    generalize (a / 10) (b / 10) (a mod 10) (b mod 10).
    intros qa qb ra rb Hdiv IH Ha10 Hb10 Hma Hmb.
    destruct (Nat.lt_trichotomy qa qb) as [Hlt|[Heq|Hgt]].
    + by rewrite (IH qa qb Hlt Hdiv).
    + subst qb. rewrite compare_refl. cbn [String.compare].
      rewrite digit_chr_lt; [reflexivity | lia | lia].
    + lia.
Qed.

(** ** Numbered page images ([pdf-to-image.py]) *)

(** C10. In [convert_pdf_to_numbered_images], the image of every page [i]
    of the document is named by the 1-based page number written with
    exactly [len(str(page_count))] digits, zero-padded, followed by
    [.png]; and for page indices [i < j] of the document the name of page
    [i] is strictly below the name of page [j] in the lexicographic order
    of strings: sorting the files by name sorts them by page. *)
Theorem image_name_order (page_count : nat) :
  (∀ i, i < page_count →
     image_name page_count i =
       dec (String.length (str page_count)) (i + 1) +:+ ".png" ∧
     dec (String.length (str page_count)) (i + 1) =
       replicate_chr (String.length (str page_count) - String.length (str (i + 1)))
         "0" +:+ str (i + 1)) ∧
  (∀ i j, i < j → j < page_count →
     str_lt (image_name page_count i) (image_name page_count j) = true).
Proof.
  pose proof (str_upper page_count) as Hup.
  pose proof (str_length_pos page_count) as Hw.
  unfold image_name. set (w := String.length (str page_count)) in *.
  split.
  - intros i Hi. rewrite zfill_str by (done || lia). split; [done |].
    by destruct (str_pad_dec w (i + 1)) as [_ <-]; [lia | done |].
  - intros i j Hij Hj. rewrite !zfill_str by (done || lia).
    unfold str_lt, String.ltb.
    rewrite compare_app by (by rewrite !length_dec).
    rewrite dec_lt; [done | lia | lia].
Qed.

Lemma image_name_order_witness :
  image_name 1 0 = "1.png" ∧
  image_name 12 8 = "09.png" ∧
  str_lt (image_name 12 8) (image_name 12 9) = true.
Proof.
  destruct (image_name_order 1) as [Hone _].
  destruct (image_name_order 12) as [Hname Horder].
  split; [| split].
  - destruct (Hone 0) as [-> _]; [lia | reflexivity].
  - destruct (Hname 8) as [-> _]; [lia | reflexivity].
  - apply Horder; lia.
Defined.

(** ** Deleting the code fences ([create_latex_document]) *)

Lemma prefix_app (p s : string) :
  String.prefix p s = true → ∃ r, s = p +:+ r.
Proof.
  revert s. induction p as [|a p IH]; intros s Hp.
  - by exists s.
  - destruct s as [|b s]; [done |]. simpl in Hp.
    destruct (ascii_dec a b) as [->|]; [| done].
    destruct (IH _ Hp) as [r ->]. by exists r.
Qed.

Lemma prefix_app_true (p r : string) : String.prefix p (p +:+ r) = true.
Proof.
  induction p as [|a p IH]; [by destruct r |].
  str_simpl. by destruct (ascii_dec a a).
Qed.

Lemma occurs_occursb (pat s : string) : occurs pat s → occursb pat s = true.
Proof.
  intros (a & b & ->). induction a as [|c a IH].
  - rewrite str_app_nil_l. pose proof (prefix_app_true pat b) as Hp.
    destruct (pat +:+ b); cbn [occursb]; by rewrite Hp.
  - rewrite str_app_cons. cbn [occursb]. rewrite IH. apply orb_true_r.
Qed.

(** While an occurrence is being dropped, the scan only counts. *)
Lemma re_sub_go_skip (pat a rest : string) :
  re_sub_go pat (String.length a) (a +:+ rest) = re_sub_go pat 0 rest.
Proof. induction a as [|c a IH]; [by destruct rest |]. str_simpl. apply IH. Qed.

Lemma re_sub_delete_match (pat rest : string) :
  pat ≠ "" →
  re_sub_delete pat (pat +:+ rest) = re_sub_delete pat rest.
Proof.
  intros Hpat. destruct pat as [|c p]; [done |]. unfold re_sub_delete.
  rewrite str_app_cons. cbn [re_sub_go]. rewrite <- str_app_cons, prefix_app_true.
  cbn [String.length]. replace (S (String.length p) - 1) with (String.length p) by lia.
  apply re_sub_go_skip.
Qed.

Lemma re_sub_delete_keep (pat : string) (c : ascii) (s : string) :
  String.prefix pat (String c s) = false →
  re_sub_delete pat (String c s) = String c (re_sub_delete pat s).
Proof. intros Hp. unfold re_sub_delete. cbn [re_sub_go]. by rewrite Hp. Qed.

(** [re.sub(pat, "", s)] deletes every occurrence of [pat], and what it
    returns is the only string that is [s] with every occurrence deleted. *)
Lemma re_sub_delete_deleted (pat s : string) :
  pat ≠ "" → deleted pat s (re_sub_delete pat s).
Proof.
  intros Hpat.
  remember (String.length s) as n eqn:Hn.
  revert s Hn. induction (lt_wf n) as [n _ IH]. intros s ->.
  destruct (String.prefix pat s) eqn:Hp.
  - destruct (prefix_app _ _ Hp) as [r ->].
    rewrite re_sub_delete_match by done. constructor.
    apply (IH (String.length r)); [| done].
    rewrite str_length_app. destruct pat; [done |]. simpl. lia.
  - destruct s as [|c s]; [constructor |].
    rewrite re_sub_delete_keep by done. constructor; [done |].
    apply (IH (String.length s)); [simpl; lia | done].
Qed.

Lemma deleted_unique (pat s r : string) :
  pat ≠ "" → deleted pat s r → r = re_sub_delete pat s.
Proof.
  intros Hpat Hdel. induction Hdel as [|s r _ IH|c s r Hp _ IH].
  - done.
  - by rewrite re_sub_delete_match.
  - rewrite re_sub_delete_keep by done. by f_equal.
Qed.

(** A text without the delimiter is left as it is. *)
Lemma re_sub_delete_id (pat s : string) :
  occursb pat s = false → re_sub_delete pat s = s.
Proof.
  induction s as [|c s IH]; [done |]. intros Hocc. simpl in Hocc.
  apply orb_false_elim in Hocc as [Hp Hs].
  rewrite re_sub_delete_keep by done. by rewrite IH.
Qed.

Lemma prefix_cons_eq (a : ascii) (p t : string) :
  String.prefix (String a p) (String a t) = String.prefix p t.
Proof. cbn [String.prefix]. by destruct (ascii_dec a a). Qed.

Lemma prefix_cons_ne (a b : ascii) (p t : string) :
  a ≠ b → String.prefix (String a p) (String b t) = false.
Proof. intros Hne. cbn [String.prefix]. by destruct (ascii_dec a b). Qed.

Lemma prefix_backquotes (s : string) :
  String.prefix "```" s = (3 <=? leading_backquotes s).
Proof.
  destruct s as [|c1 s]; [done |]. cbn [leading_backquotes].
  destruct (Ascii.eqb_spec c1 "`") as [->|]; [| by rewrite prefix_cons_ne].
  rewrite prefix_cons_eq.
  destruct s as [|c2 s]; [done |]. cbn [leading_backquotes].
  destruct (Ascii.eqb_spec c2 "`") as [->|]; [| by rewrite prefix_cons_ne].
  rewrite prefix_cons_eq.
  destruct s as [|c3 s]; [done |]. cbn [leading_backquotes].
  destruct (Ascii.eqb_spec c3 "`") as [->|]; [| by rewrite prefix_cons_ne].
  rewrite prefix_cons_eq. by destruct s.
Qed.

(** Fewer than three leading backquotes are not touched. *)
Lemma leading_backquotes_kept (s : string) :
  leading_backquotes s < 3 →
  leading_backquotes (re_sub_delete "```" s) = leading_backquotes s.
Proof.
  induction s as [|c s IH]; [done |]. intros Hlead.
  rewrite re_sub_delete_keep.
  2: { rewrite prefix_backquotes. by apply Nat.leb_gt. }
  cbn [leading_backquotes] in *. destruct (Ascii.eqb c "`"); [| done].
  rewrite IH; [done | lia].
Qed.

(** One pass of [re.sub("```", "", s)] leaves no run of three backquotes:
    the pass removes the backquotes of each run three at a time from the
    left, so fewer than three are left of each run. *)
Lemma re_sub_delete_backquotes (s : string) :
  leading_backquotes (re_sub_delete "```" s) < 3 ∧
  occursb "```" (re_sub_delete "```" s) = false.
Proof.
  remember (String.length s) as n eqn:Hn.
  revert s Hn. induction (lt_wf n) as [n _ IH]. intros s ->.
  destruct (String.prefix "```" s) eqn:Hp.
  - destruct (prefix_app _ _ Hp) as [r ->].
    rewrite re_sub_delete_match by done.
    apply (IH (String.length r)); [| done].
    rewrite str_length_app. simpl. lia.
  - destruct s as [|c s]; [split; [cbn; lia | reflexivity] |].
    rewrite re_sub_delete_keep by done.
    destruct (IH (String.length s) ltac:(simpl; lia) s eq_refl) as [Hlead Hocc].
    assert (leading_backquotes (String c (re_sub_delete "```" s)) < 3) as Hc.
    { rewrite prefix_backquotes in Hp. apply Nat.leb_gt in Hp.
      cbn [leading_backquotes] in *. destruct (Ascii.eqb c "`"); [| lia].
      rewrite leading_backquotes_kept; lia. }
    split; [done |].
    cbn [occursb]. rewrite Hocc, prefix_backquotes.
    rewrite orb_false_r. by apply Nat.leb_gt.
Qed.

Lemma occursb_occurs (pat s : string) : occursb pat s = true → occurs pat s.
Proof.
  induction s as [|c s IH]; cbn [occursb]; intros Hocc.
  - rewrite orb_false_r in Hocc. destruct (prefix_app _ _ Hocc) as [r Hr].
    exists "", r. by rewrite str_app_nil_l.
  - apply orb_true_iff in Hocc as [Hp|Hs].
    + destruct (prefix_app _ _ Hp) as [r Hr]. exists "", r. by rewrite str_app_nil_l.
    + destruct (IH Hs) as (a & b & ->). exists (String c a), b.
      by rewrite str_app_cons.
Qed.

Lemma occurs_fence_latex (s : string) : occurs "```latex" s → occurs "```" s.
Proof. intros (a & b & ->). by exists a, ("latex" +:+ b). Qed.

(** ** The effect of [create_latex_document] *)

Lemma create_latex_document_run (frame output_file : string) (w : World) :
  create_latex_document frame output_file w =
    (mkWorld (<[output_file := clean_frame frame +:+ nl]> (files w)) (stdout w),
     Ok ()).
Proof.
  unfold create_latex_document, create_latex_document_steps.
  cbn [for_each]. unfold mbind, M_bind, mret, M_ret, id, open_w, write.
  cbn [files stdout]. rewrite lookup_insert_eq, insert_insert_eq.
  by rewrite str_app_nil_l.
Qed.

(** C9. What ArtifactWriter persists: [create_latex_document] returns, and
    the per-page file then holds the cleaned markup followed by a newline.
    The cleaned markup is the generated markup with every occurrence of the
    fence [```latex] deleted and then every remaining occurrence of [```]
    deleted, every other character kept in its place, and it is the only
    string that is so; no [```latex] and no [```] is left in it; a markup
    without fences is written as it is. *)
Theorem create_latex_document_cleans (frame output_file : string) (w : World) :
  ∃ w' cleaned,
    create_latex_document frame output_file w = (w', Ok ()) ∧
    files w' !! output_file = Some (cleaned +:+ nl) ∧
    (∃ mid, deleted "```latex" frame mid ∧ deleted "```" mid cleaned) ∧
    (∀ mid r, deleted "```latex" frame mid → deleted "```" mid r → r = cleaned) ∧
    ¬ occurs "```latex" cleaned ∧
    ¬ occurs "```" cleaned ∧
    (¬ occurs "```" frame → cleaned = frame).
Proof.
  exists (mkWorld (<[output_file := clean_frame frame +:+ nl]> (files w)) (stdout w)),
         (clean_frame frame).
  split; [apply create_latex_document_run |].
  cbn [files]. split; [apply lookup_insert_eq |].
  assert (¬ occurs "```" (clean_frame frame)) as Hnone.
  { intros Hocc%occurs_occursb. unfold clean_frame in Hocc.
    destruct (re_sub_delete_backquotes (re_sub_delete "```latex" frame)) as [_ H].
    congruence. }
  split; [| split; [| split; [| split]]]; [| | | done |].
  - exists (re_sub_delete "```latex" frame).
    split; by apply re_sub_delete_deleted.
  - intros mid r Hmid Hr.
    apply deleted_unique in Hmid as ->; [| done].
    by apply deleted_unique in Hr as ->.
  - intros Hocc. by apply Hnone, occurs_fence_latex.
  - intros Hfree. unfold clean_frame.
    assert (occursb "```" frame = false) as Hb.
    { destruct (occursb "```" frame) eqn:E; [| done].
      by apply occursb_occurs in E. }
    assert (occursb "```latex" frame = false) as Hl.
    { destruct (occursb "```latex" frame) eqn:E; [| done].
      apply occursb_occurs, occurs_fence_latex in E. done. }
    rewrite (re_sub_delete_id "```latex") by done.
    by apply re_sub_delete_id.
Qed.

Lemma create_latex_document_trace (frame output_file : string) (w : World) :
  worlds_through (create_latex_document_steps frame output_file) w =
    [ mkWorld (<[output_file := ""]> (files w)) (stdout w);
      mkWorld (<[output_file := clean_frame frame +:+ nl]> (files w)) (stdout w) ].
Proof.
  unfold create_latex_document_steps. cbn [worlds_through].
  unfold open_w, write. cbn [files stdout].
  by rewrite lookup_insert_eq, insert_insert_eq, str_app_nil_l.
Qed.

(** C5, as the code has it.  [create_latex_document] writes the artifact in
    place, without a temporary file and without a rename: it opens the
    per-page file in truncating mode and then writes the cleaned markup and
    a newline.  While it runs the file system goes through two states: after
    the open the artifact exists and is empty (what it held before is
    gone); after the write it holds the cleaned markup and the newline,
    which is the state the function returns in.  No other file is created
    or changed in either state. *)
Theorem create_latex_document_in_place (frame output_file : string) (w : World) :
  worlds_through (create_latex_document_steps frame output_file) w =
    [ mkWorld (<[output_file := ""]> (files w)) (stdout w);
      mkWorld (<[output_file := clean_frame frame +:+ nl]> (files w)) (stdout w) ] ∧
  create_latex_document frame output_file w =
    (mkWorld (<[output_file := clean_frame frame +:+ nl]> (files w)) (stdout w),
     Ok ()) ∧
  delete output_file (<[output_file := ""]> (files w)) =
    delete output_file (files w) ∧
  delete output_file (<[output_file := clean_frame frame +:+ nl]> (files w)) =
    delete output_file (files w).
Proof.
  split; [apply create_latex_document_trace |].
  split; [apply create_latex_document_run |].
  by rewrite !delete_insert_eq.
Qed.

(** C5 fails as stated: writing the one-frame markup of page 28 into an
    empty artifact directory passes through a state in which the artifact
    file exists and does not hold the full cleaned markup. *)
Lemma create_latex_document_not_atomic :
  ∃ w', w' ∈ worlds_through
               (create_latex_document_steps "\begin{frame}\end{frame}"
                  "lec_beamers/lec_page_28.tex")
               (mkWorld ∅ []) ∧
        files w' !! "lec_beamers/lec_page_28.tex" ≠ None ∧
        files w' !! "lec_beamers/lec_page_28.tex" ≠
          Some (clean_frame "\begin{frame}\end{frame}" +:+ nl).
Proof.
  exists (mkWorld {["lec_beamers/lec_page_28.tex" := ""]} []).
  split; [| split].
  - rewrite create_latex_document_trace.
    cbn [files stdout]. rewrite insert_empty. apply list_elem_of_here.
  - cbn [files]. by rewrite lookup_singleton_eq.
  - cbn [files]. rewrite lookup_singleton_eq. by vm_compute.
Qed.

(** ** GeometryNormalizer *)

Lemma Qcdiv_nonneg (a b : Qc) : (0 ≤ a → 0 < b → 0 ≤ a / b)%Qc.
Proof.
  intros Ha Hb. unfold Qcdiv.
  apply Qcmult_nonneg_nonneg; [done |]. by apply Qclt_le_weak, Qcinv_pos.
Qed.

Lemma Qcdiv_le_1 (a b : Qc) : (a ≤ b → 0 < b → a / b ≤ 1)%Qc.
Proof.
  intros Hab Hb. unfold Qcdiv.
  rewrite <- (Qcmult_inv_r b) by (by apply Qclt_not_eq in Hb).
  apply Qcmult_le_mono_nonneg_r; [| done]. by apply Qclt_le_weak, Qcinv_pos.
Qed.

Lemma Qcdiv_diag (b : Qc) : (0 < b → b / b = 1)%Qc.
Proof. intros Hb. apply Qcmult_inv_r. by apply Qclt_not_eq in Hb. Qed.

Lemma Qcminus_nonneg (a b : Qc) : (b ≤ a → 0 ≤ a - b)%Qc.
Proof. intros Hab. by apply Qcle_minus_iff in Hab. Qed.

Lemma Qcminus_le (a b : Qc) : (0 ≤ b → a - b ≤ a)%Qc.
Proof.
  intros Hb. unfold Qcminus.
  rewrite <- (Qcplus_0_r a) at 2. apply Qcplus_le_mono_l.
  apply Qcopp_le_compat in Hb. exact Hb.
Qed.

Lemma Qcminus_diag (a : Qc) : (a - a = 0)%Qc.
Proof. apply Qcplus_opp_r. Qed.

Lemma truediv_ok (rnd : Qc → Qc) (a b : Qc) :
  b ≠ 0%Qc → truediv rnd a b = Ok (rnd (a / b)%Qc).
Proof. intros Hb. unfold truediv. by destruct (decide (b = 0%Qc)). Qed.

Lemma truediv_zero (rnd : Qc → Qc) (a : Qc) :
  truediv rnd a 0%Qc = Raise ZeroDivisionError.
Proof. unfold truediv. by destruct (decide (0%Qc = 0%Qc)). Qed.

Lemma normalize_block_ok (rnd : Qc → Qc) (block : Block) (width height : Qc) :
  width ≠ 0%Qc → height ≠ 0%Qc →
  normalize_block rnd block width height =
    Ok {| te_text := strip (text block);
          te_x := rnd (x0 block / width)%Qc;
          te_y := rnd (1 - rnd (y1 block / height))%Qc;
          te_width := rnd (rnd (x1 block - x0 block) / width)%Qc |}.
Proof.
  intros Hw Hh. unfold normalize_block, fsub. by rewrite !truediv_ok.
Qed.

Lemma normalize_block_zero (rnd : Qc → Qc) (block : Block) (width height : Qc) :
  width = 0%Qc ∨ height = 0%Qc →
  normalize_block rnd block width height = Raise ZeroDivisionError.
Proof.
  intros Hzero. unfold normalize_block.
  destruct (decide (width = 0%Qc)) as [->|Hw]; [by rewrite truediv_zero |].
  destruct Hzero as [? | ->]; [done |].
  by rewrite truediv_ok, truediv_zero.
Qed.

Section Geometry.
Variable rnd : Qc → Qc.
Hypothesis rnd_mono : ∀ a b : Qc, (a ≤ b)%Qc → (rnd a ≤ rnd b)%Qc.
Hypothesis rnd_0 : rnd 0%Qc = 0%Qc.
Hypothesis rnd_1 : rnd 1%Qc = 1%Qc.

Lemma rnd_unit (a : Qc) : (0 ≤ a → a ≤ 1 → 0 ≤ rnd a ∧ rnd a ≤ 1)%Qc.
Proof.
  intros H0 H1. split.
  - rewrite <- rnd_0. by apply rnd_mono.
  - rewrite <- rnd_1. by apply rnd_mono.
Qed.

(** C4. GeometryNormalizer on a box inside a page of positive dimensions.
    Float arithmetic is any rounding [rnd] of the exact operations that is
    monotone and represents 0 and 1, and the coordinate [x1] of the box is
    a float.  Then the dictionary built from the block is exactly
    [{x: x0/W, y: 1 - y1/H, width: (x1-x0)/W}] in that arithmetic, each of
    [x], [y] and [width] lies in [[0,1]], and the vertical axis is flipped:
    [y = 0] is the page edge [y1 = H], the bottom edge of the page in the
    coordinates of the blocks, and [y = 1] the edge [y1 = 0], its top
    edge. *)
Theorem normalize_block_unit_interval (block : Block) (W H : Qc) :
  (0 < W)%Qc → (0 < H)%Qc →
  (0 ≤ x0 block)%Qc → (x0 block ≤ x1 block)%Qc → (x1 block ≤ W)%Qc →
  (0 ≤ y0 block)%Qc → (y0 block ≤ y1 block)%Qc → (y1 block ≤ H)%Qc →
  rnd (x1 block) = x1 block →
  ∃ te,
    normalize_block rnd block W H = Ok te ∧
    te_x te = rnd (x0 block / W)%Qc ∧
    te_y te = rnd (1 - rnd (y1 block / H))%Qc ∧
    te_width te = rnd (rnd (x1 block - x0 block) / W)%Qc ∧
    (0 ≤ te_x te ∧ te_x te ≤ 1)%Qc ∧
    (0 ≤ te_y te ∧ te_y te ≤ 1)%Qc ∧
    (0 ≤ te_width te ∧ te_width te ≤ 1)%Qc ∧
    (y1 block = H → te_y te = 0%Qc) ∧
    (y1 block = 0%Qc → te_y te = 1%Qc).
Proof.
  intros HW HH Hx0 Hx01 Hx1 Hy0 Hy01 Hy1 Hrep.
  assert (W ≠ 0%Qc) as HWne by (by apply Qclt_not_eq in HW).
  assert (H ≠ 0%Qc) as HHne by (by apply Qclt_not_eq in HH).
  eexists. split; [by apply normalize_block_ok |]. cbn.
  split; [done |]. split; [done |]. split; [done |].
  assert (0 ≤ y1 block)%Qc as Hy1pos by (by etrans).
  destruct (rnd_unit (y1 block / H)%Qc) as [Hq0 Hq1];
    [by apply Qcdiv_nonneg | by apply Qcdiv_le_1 |].
  assert (0 ≤ rnd (x1 block - x0 block))%Qc as Hd0.
  { rewrite <- rnd_0. by apply rnd_mono, Qcminus_nonneg. }
  assert (rnd (x1 block - x0 block) ≤ W)%Qc as Hd1.
  { etrans; [| exact Hx1]. rewrite <- Hrep at 2.
    by apply rnd_mono, Qcminus_le. }
  assert (x0 block ≤ W)%Qc as Hx0W by (by etrans).
  split; [apply rnd_unit; [by apply Qcdiv_nonneg | by apply Qcdiv_le_1] |].
  split; [apply rnd_unit; [by apply Qcminus_nonneg | by apply Qcminus_le] |].
  split; [apply rnd_unit; [by apply Qcdiv_nonneg | by apply Qcdiv_le_1] |].
  split.
  - intros ->. by rewrite Qcdiv_diag, rnd_1, Qcminus_diag, rnd_0.
  - intros ->. unfold Qcdiv. rewrite Qcmult_0_l, rnd_0.
    unfold Qcminus. change (- 0)%Qc with 0%Qc. by rewrite Qcplus_0_r, rnd_1.
Qed.

End Geometry.

Lemma round_grid_mono (a b : Qc) : (a ≤ b)%Qc → (round_grid a ≤ round_grid b)%Qc.
Proof.
  intros Hab. unfold Qcle, round_grid. cbn [this Q2Qc].
  rewrite !Qred_correct. unfold Qle. cbn [Qnum Qden].
  apply Z.mul_le_mono_nonneg_r; [done |].
  apply Qfloor_resp_le. by apply Qmult_le_compat_r.
Qed.

Lemma round_grid_0 : round_grid 0%Qc = 0%Qc.
Proof. apply Qc_is_canon. reflexivity. Qed.

Lemma round_grid_1 : round_grid 1%Qc = 1%Qc.
Proof. apply Qc_is_canon. reflexivity. Qed.

(** The theorem for the box (1, 2, 3, 4) on a 10 by 20 page, in exact
    arithmetic and in the arithmetic that rounds down to multiples of
    1/1024. *)
Lemma normalize_block_unit_interval_witness :
  (∃ te,
    normalize_block id (mkBlock 1 (Q2Qc 2) (Q2Qc 3) (Q2Qc 4) "title") (Q2Qc 10) (Q2Qc 20)
      = Ok te ∧
    te_x te = (1 / Q2Qc 10)%Qc ∧
    te_y te = (1 - Q2Qc 4 / Q2Qc 20)%Qc ∧
    te_width te = ((Q2Qc 3 - 1) / Q2Qc 10)%Qc ∧
    (0 ≤ te_x te ∧ te_x te ≤ 1)%Qc ∧
    (0 ≤ te_y te ∧ te_y te ≤ 1)%Qc ∧
    (0 ≤ te_width te ∧ te_width te ≤ 1)%Qc) ∧
  (∃ te,
    normalize_block round_grid
      (mkBlock 1 (Q2Qc 2) (Q2Qc 3) (Q2Qc 4) "title") (Q2Qc 10) (Q2Qc 20) = Ok te ∧
    te_x te = round_grid (1 / Q2Qc 10)%Qc ∧
    te_y te = round_grid (1 - round_grid (Q2Qc 4 / Q2Qc 20))%Qc ∧
    te_width te = round_grid (round_grid (Q2Qc 3 - 1) / Q2Qc 10)%Qc ∧
    (0 ≤ te_x te ∧ te_x te ≤ 1)%Qc ∧
    (0 ≤ te_y te ∧ te_y te ≤ 1)%Qc ∧
    (0 ≤ te_width te ∧ te_width te ≤ 1)%Qc).
Proof.
  split.
  - destruct (normalize_block_unit_interval id
                (λ a b Hab, Hab) eq_refl eq_refl
                (mkBlock 1 (Q2Qc 2) (Q2Qc 3) (Q2Qc 4) "title") (Q2Qc 10) (Q2Qc 20))
      as (te & Hte & Hx & Hy & Hw & Hxb & Hyb & Hwb & _); try done.
    exists te. done.
  - destruct (normalize_block_unit_interval round_grid
                round_grid_mono round_grid_0 round_grid_1
                (mkBlock 1 (Q2Qc 2) (Q2Qc 3) (Q2Qc 4) "title") (Q2Qc 10) (Q2Qc 20))
      as (te & Hte & Hx & Hy & Hw & Hxb & Hyb & Hwb & _); try done.
    { by apply Qc_is_canon. }
    exists te. done.
Defined.

(** C4 fails as stated: [y = 0] is not the top edge of the page.  On a
    10 by 20 page a block that touches the top edge ([y0 = 0]) and is one
    unit high gets [y = 19/20], and a block that touches the bottom edge
    ([y1 = 20]) gets [y = 0]. *)
Lemma normalize_block_y_zero_is_bottom :
  (∃ te,
     normalize_block id (mkBlock 1 0 (Q2Qc 3) 1 "title") (Q2Qc 10) (Q2Qc 20) = Ok te ∧
     te_y te = Q2Qc (19 # 20) ∧ te_y te ≠ 0%Qc) ∧
  (∃ te,
     normalize_block id (mkBlock 1 (Q2Qc 19) (Q2Qc 3) (Q2Qc 20) "title")
       (Q2Qc 10) (Q2Qc 20) = Ok te ∧
     te_y te = 0%Qc).
Proof.
  split.
  - eexists. split; [by apply normalize_block_ok |]. cbn [te_y].
    split; [by apply Qc_is_canon | done].
  - eexists. split; [by apply normalize_block_ok |]. cbn [te_y].
    by apply Qc_is_canon.
Qed.

Lemma normalize_block_raise (rnd : Qc → Qc) (block : Block) (width height : Qc)
    (e : exn) :
  normalize_block rnd block width height = Raise e →
  e = ZeroDivisionError ∧ (width = 0%Qc ∨ height = 0%Qc).
Proof.
  destruct (decide (width = 0%Qc)) as [Hw|Hw].
  { rewrite normalize_block_zero by (by left). intros [= <-]. eauto. }
  destruct (decide (height = 0%Qc)) as [Hh|Hh].
  { rewrite normalize_block_zero by (by right). intros [= <-]. eauto. }
  by rewrite normalize_block_ok.
Qed.

(** C7, as the code has it.  When the page width or the page height is
    zero, the dictionary of a block is not built: the division by the zero
    dimension raises Python's built-in [ZeroDivisionError].  Nothing in the
    script checks the dimensions or converts the exception.  And this is
    the only error condition: whenever building the dictionary raises, the
    exception is [ZeroDivisionError] and the width or the height is
    zero. *)
Theorem normalize_block_zero_division (rnd : Qc → Qc) (block : Block) (W H : Qc) :
  (W = 0%Qc ∨ H = 0%Qc →
   normalize_block rnd block W H = Raise ZeroDivisionError) ∧
  (∀ e, normalize_block rnd block W H = Raise e →
        e = ZeroDivisionError ∧ (W = 0%Qc ∨ H = 0%Qc)).
Proof.
  split; [apply normalize_block_zero |]. intros e. apply normalize_block_raise.
Qed.

Lemma normalize_block_zero_division_witness :
  normalize_block id (mkBlock 1 (Q2Qc 2) (Q2Qc 3) (Q2Qc 4) "title") 0%Qc (Q2Qc 20)
    = Raise ZeroDivisionError ∧
  normalize_block id (mkBlock 1 (Q2Qc 2) (Q2Qc 3) (Q2Qc 4) "title") (Q2Qc 10) 0%Qc
    = Raise ZeroDivisionError.
Proof.
  split.
  - apply (proj1 (normalize_block_zero_division id _ 0%Qc (Q2Qc 20))). by left.
  - apply (proj1 (normalize_block_zero_division id _ (Q2Qc 10) 0%Qc)). by right.
Defined.

(** C7 fails as stated: on a page of width 0 the error is not a
    [MalformedPageError]. *)
Lemma normalize_block_not_malformed_page_error :
  normalize_block id (mkBlock 1 (Q2Qc 2) (Q2Qc 3) (Q2Qc 4) "title") 0%Qc (Q2Qc 20)
    ≠ Raise MalformedPageError.
Proof. rewrite normalize_block_zero by (by left). discriminate. Qed.

(** ** The sort key of the assembler *)

Lemma span_digits_spec (s d r : string) :
  span_digits s = (d, r) → all_digits d = true ∧ s = d +:+ r.
Proof.
  revert d r. induction s as [|c s IH]; intros d r Hspan; cbn in Hspan.
  - by inversion Hspan.
  - destruct (is_digit c) eqn:Hc.
    + destruct (span_digits s) as [d' r'] eqn:Hs. inversion Hspan; subst.
      destruct (IH d' r eq_refl) as [Hd ->].
      split; [cbn; by rewrite Hc | done].
    + by inversion Hspan.
Qed.

Lemma int_go_digits (s : string) (acc : nat) :
  all_digits s = true → ∃ n, int_go acc s = Some n.
Proof.
  revert acc. induction s as [|c s IH]; intros acc Hs; cbn in *.
  - by exists acc.
  - apply andb_true_iff in Hs as [-> Hs]. by apply IH.
Qed.

Lemma int_digits (s : string) :
  s ≠ "" → all_digits s = true → ∃ n, int s = Ok n.
Proof.
  intros Hne Hs. destruct (int_go_digits s 0 Hs) as [n Hn].
  exists n. unfold int. destruct s; [done |]. by rewrite Hn.
Qed.

Lemma match_page_at_digits (s ds : string) :
  match_page_at s = Some ds → ds ≠ "" ∧ all_digits ds = true.
Proof.
  unfold match_page_at. destruct (strip_prefix "_page_" s) as [rest|]; [| done].
  destruct (span_digits rest) as [d r] eqn:Hspan.
  apply span_digits_spec in Hspan as [Hd _].
  destruct d as [|c d]; [done |].
  destruct (String.prefix ".tex" r); [| done].
  intros [= <-]. done.
Qed.

Lemma re_search_page_eq (x : string) :
  re_search_page x =
    match match_page_at x with
    | Some ds => Some ds
    | None =>
        match x with
        | "" => None
        | String _ x' => re_search_page x'
        end
    end.
Proof. by destruct x. Qed.

Lemma re_search_page_digits (x ds : string) :
  re_search_page x = Some ds → ds ≠ "" ∧ all_digits ds = true.
Proof.
  induction x as [|c x IH]; rewrite re_search_page_eq;
    destruct (match_page_at _) as [ds'|] eqn:Hm; try done.
  all: intros [= <-]; by apply match_page_at_digits in Hm.
Qed.

(** The key of a path either is its page number or raises
    [AttributeError], when the pattern matches nowhere in the path. *)
Lemma page_key_cases (x : string) :
  (re_search_page x = None ∧ page_key x = Raise AttributeError) ∨
  (is_Some (re_search_page x) ∧ page_key x = Ok (page_number x)).
Proof.
  unfold page_number, page_key.
  destruct (re_search_page x) as [ds|] eqn:Hx; [right | by left].
  destruct (re_search_page_digits _ _ Hx) as [Hne Hds].
  destruct (int_digits ds Hne Hds) as [n ->]. eauto.
Qed.

(** ** [sorted] *)

Lemma decorate_ok (xs : list string) :
  (∀ x, x ∈ xs → is_Some (re_search_page x)) →
  decorate page_key xs = Ok ((λ x, (page_number x, x)) <$> xs).
Proof.
  induction xs as [|x xs IH]; intros Hall; [done |]. cbn.
  destruct (page_key_cases x) as [[Hnone _]|[_ ->]].
  - destruct (Hall x) as [? ?]; [left | congruence].
  - rewrite IH; [done |]. intros y Hy. apply Hall. by right.
Qed.

Lemma decorate_raise (xs : list string) (x : string) :
  x ∈ xs → re_search_page x = None →
  decorate page_key xs = Raise AttributeError.
Proof.
  induction xs as [|y xs IH]; intros Hin Hx; [by apply elem_of_nil in Hin |].
  cbn. destruct (page_key_cases y) as [[_ ->]|[Hsome ->]]; [done |].
  apply elem_of_cons in Hin as [->|Hin].
  - rewrite Hx in Hsome. by destruct Hsome.
  - by rewrite IH.
Qed.

Section SortLemmas.
Context {A : Type}.
Implicit Types (x y : nat * A) (l : list (nat * A)).

Lemma insert_by_key_perm x l : insert_by_key x l ≡ₚ x :: l.
Proof.
  induction l as [|y l IH]; [done |]. cbn.
  destruct (x.1 <=? y.1); [done |].
  rewrite IH. apply Permutation_swap.
Qed.

Lemma sort_by_key_cons x l :
  sort_by_key (x :: l) = insert_by_key x (sort_by_key l).
Proof. reflexivity. Qed.

Lemma sort_by_key_perm l : sort_by_key l ≡ₚ l.
Proof.
  induction l as [|x l IH]; [done |].
  by rewrite sort_by_key_cons, insert_by_key_perm, IH.
Qed.



Lemma insert_by_key_comm x y l :
  x.1 ≠ y.1 →
  insert_by_key x (insert_by_key y l) = insert_by_key y (insert_by_key x l).
Proof.
  intros Hne. induction l as [|z l IH]; cbn.
  - destruct (Nat.leb_spec x.1 y.1), (Nat.leb_spec y.1 x.1); (done || lia).
  - destruct (Nat.leb_spec y.1 z.1), (Nat.leb_spec x.1 z.1); cbn;
      repeat (match goal with
              | |- context [(?a <=? ?b)] => destruct (Nat.leb_spec a b)
              end; cbn); try done; try lia.
    by rewrite IH.
Qed.

(** With pairwise distinct keys the sorted list does not depend on the
    order of the input. *)
Lemma sort_by_key_unique l l' :
  l ≡ₚ l' → NoDup l.*1 → sort_by_key l = sort_by_key l'.
Proof.
  induction 1 as [|x l l' Hp IH|x y l|l l' l'' Hp IH Hp' IH']; intros Hnd.
  - done.
  - rewrite !sort_by_key_cons, IH; [done |].
    rewrite fmap_cons in Hnd. by apply NoDup_cons_1_2 in Hnd.
  - rewrite !sort_by_key_cons. apply insert_by_key_comm.
    rewrite !fmap_cons in Hnd. apply NoDup_cons_1_1 in Hnd.
    intros Heq. apply Hnd. rewrite Heq. by left.
  - rewrite IH by done. apply IH'. by rewrite <- Hp.
Qed.

End SortLemmas.

(** ** SequenceAssembler *)


Lemma artifact_bodies_cons (fs : gmap string string) (p : string)
    (paths : list string) :
  artifact_bodies fs (p :: paths) =
    universal_newlines (default "" (fs !! p)) +:+ nl +:+ artifact_bodies fs paths.
Proof. reflexivity. Qed.

Lemma artifact_bodies_ext (fs fs' : gmap string string) (paths : list string) :
  (∀ p, p ∈ paths → fs' !! p = fs !! p) →
  artifact_bodies fs' paths = artifact_bodies fs paths.
Proof.
  induction paths as [|p paths IH]; intros Hext; [done |].
  rewrite !artifact_bodies_cons.
  rewrite Hext by left. rewrite IH; [done |].
  intros q Hq. apply Hext. by right.
Qed.

(** The reading loop appends the files, in the order of the list. *)
Lemma concat_loop (output_file : string) (paths : list string) (w : World)
    (cur : string) :
  files w !! output_file = Some cur →
  (∀ p, p ∈ paths → p ≠ output_file ∧ is_Some (files w !! p)) →
  for_each paths (λ beamer_file,
      c ← read_text beamer_file; write output_file (c +:+ nl)) w =
    (mkWorld (<[output_file := cur +:+ artifact_bodies (files w) paths]> (files w))
             (stdout w), Ok ()).
Proof.
  revert w cur. induction paths as [|p paths IH]; intros w cur Hcur Hpaths.
  - cbn. rewrite str_app_nil_r, insert_id by done. by destruct w.
  - destruct (Hpaths p) as [Hne [c Hc]]; [left |].
    cbn [for_each]. unfold mbind at 1, M_bind at 1.
    unfold mbind at 1, M_bind at 1, read_text at 1. rewrite Hc.
    unfold write at 1. rewrite Hcur. cbn [default].
    rewrite IH with (cur := cur +:+ (universal_newlines c +:+ nl)); cbn [files stdout].
    + rewrite insert_insert_eq.
      rewrite artifact_bodies_cons, Hc. cbn [default].
      rewrite (artifact_bodies_ext (files w)).
      * by rewrite !str_app_assoc.
      * intros q Hq. apply lookup_insert_ne. intros <-.
        destruct (Hpaths output_file); [by right | done].
    + apply lookup_insert_eq.
    + intros q Hq. destruct (Hpaths q) as [Hq1 Hq2]; [by right |].
      split; [done |]. by rewrite lookup_insert_ne.
Qed.

Lemma os_listdir_ok (env : Collaborators) (fs : gmap string string)
    (dir : string) (names : list string) :
  os_listdir_outcome env fs dir = Ok names → os_listdir env fs dir = names.
Proof. intros Hnames. unfold os_listdir. by rewrite Hnames. Qed.

(** What the assembler does once the directory is listed, the sorted list
    of files is known and the output file opens. *)
Lemma concat_beamer_files_sorted (env : Collaborators) (dir output_file : string)
    (w : World) (names ordered : list string) :
  os_listdir_outcome env (files w) dir = Ok names →
  sorted page_key (tex_files dir names) = Ok ordered →
  os_open env (files w) output_file = Ok () →
  (∀ p, p ∈ ordered → p ≠ output_file ∧ is_Some (files w !! p)) →
  concat_beamer_files env dir output_file w =
    (mkWorld (<[output_file := preamble +:+ nl +:+ artifact_bodies (files w) ordered
                                 +:+ postamble +:+ nl]> (files w))
             (stdout w), Ok ()).
Proof.
  intros Hnames Hsorted Hopen Hpaths. unfold concat_beamer_files.
  unfold mbind at 1, M_bind at 1, listdir at 1. rewrite Hnames.
  unfold mbind at 1, M_bind at 1, lift at 1. rewrite Hsorted.
  unfold mbind at 1, M_bind at 1, open_for_writing at 1. rewrite Hopen.
  unfold open_w at 1.
  unfold mbind at 1, M_bind at 1, write at 1. cbn [files stdout].
  rewrite lookup_insert_eq, insert_insert_eq. cbn [default]. rewrite str_app_nil_l.
  unfold mbind at 1, M_bind at 1.
  rewrite concat_loop with (cur := preamble +:+ nl); cbn [files stdout].
  - unfold write. cbn [files stdout].
    rewrite lookup_insert_eq, insert_insert_eq. cbn [default].
    rewrite (artifact_bodies_ext (files w)).
    + rewrite !insert_insert_eq. unfold id. by rewrite !str_app_assoc.
    + intros q Hq. apply lookup_insert_ne. intros <-.
      by destruct (Hpaths output_file).
  - apply lookup_insert_eq.
  - intros q Hq. destruct (Hpaths q) as [Hq1 Hq2]; [done |].
    split; [done |]. by rewrite lookup_insert_ne.
Qed.

Lemma concat_beamer_files_raise (env : Collaborators) (dir output_file : string)
    (w : World) (e : exn) :
  sorted page_key (tex_files dir (os_listdir env (files w) dir)) = Raise e →
  concat_beamer_files env dir output_file w = (w, Raise e).
Proof.
  unfold os_listdir. intros Hsorted. unfold concat_beamer_files.
  unfold mbind at 1, M_bind at 1, listdir at 1.
  destruct (os_listdir_outcome env (files w) dir) as [names|e']; [| done].
  unfold mbind at 1, M_bind at 1, lift at 1. by rewrite Hsorted.
Qed.

(** A directory that cannot be listed: the exception of [os.listdir]
    leaves the assembler before anything is opened. *)
Lemma concat_beamer_files_unlisted (env : Collaborators) (dir output_file : string)
    (w : World) (e : exn) :
  os_listdir_outcome env (files w) dir = Raise e →
  concat_beamer_files env dir output_file w = (w, Raise e).
Proof.
  intros Hnames. unfold concat_beamer_files.
  unfold mbind at 1, M_bind at 1, listdir at 1. by rewrite Hnames.
Qed.

(** C6, as the code has it.  A file of the artifact directory whose name
    ends in [.tex] and whose path the pattern [_page_(\d+)\.tex] matches
    nowhere makes the sort key call [.group] on [None]:
    [concat_beamer_files] raises Python's [AttributeError] before it opens
    the output file, and leaves every file as it was.  The file is not
    skipped, and no [AssemblyError] exists. *)
Theorem concat_beamer_files_unmatched (env : Collaborators)
    (output_dir output_file : string) (w : World) (f : string) :
  f ∈ os_listdir env (files w) output_dir →
  endswith f ".tex" = true →
  re_search_page (os_path_join output_dir f) = None →
  concat_beamer_files env output_dir output_file w = (w, Raise AttributeError).
Proof.
  intros Hf Htex Hnone. apply concat_beamer_files_raise.
  unfold sorted.
  rewrite (decorate_raise _ (os_path_join output_dir f)); [done | | done].
  unfold tex_files. apply list_elem_of_fmap_2.
  apply list_elem_of_filter. split; [by apply Is_true_true | done].
Qed.

Lemma concat_beamer_files_unmatched_witness :
  concat_beamer_files
    (example_collaborators empty_document example_chat
       ["lec_page_28.tex"; "notes.tex"])
    "lec_beamers" "lec_full.tex" (mkWorld ∅ []) =
  (mkWorld ∅ [], Raise AttributeError).
Proof.
  apply (concat_beamer_files_unmatched _ _ _ _ "notes.tex").
  - cbn. apply list_elem_of_further, list_elem_of_here.
  - reflexivity.
  - reflexivity.
Defined.

(** C6 fails as stated: with [notes.tex] next to the artifact of page 28,
    the assembler does not fail with [AssemblyError]. *)
Lemma concat_beamer_files_not_assembly_error :
  (concat_beamer_files
     (example_collaborators empty_document example_chat
        ["lec_page_28.tex"; "notes.tex"])
     "lec_beamers" "lec_full.tex" (mkWorld ∅ [])).2 ≠ Raise AssemblyError.
Proof. by vm_compute. Qed.



Lemma sorted_page_key_perm (paths paths' : list string) :
  (∀ p, p ∈ paths → is_Some (re_search_page p)) →
  NoDup (page_number <$> paths) →
  paths' ≡ₚ paths →
  sorted page_key paths' = sorted page_key paths.
Proof.
  intros Hall Hnd Hp. unfold sorted.
  rewrite !decorate_ok; [| done | intros p; rewrite Hp; apply Hall].
  f_equal. f_equal. apply sort_by_key_unique; [by rewrite Hp |].
  rewrite <- list_fmap_compose. cbn. by rewrite Hp.
Qed.




(** ** Effects *)

Lemma bind_run {A B} (m : M A) (f : A → M B) (w : World) :
  (m ≫= f) w =
    match m w with
    | (w', Ok a) => f a w'
    | (w', Raise e) => (w', Raise e)
    end.
Proof. reflexivity. Qed.

Lemma for_each_cons {A} (x : A) (xs : list A) (body : A → M ()) :
  for_each (x :: xs) body = (body x ;; for_each xs body).
Proof. reflexivity. Qed.

Lemma for_collect_cons {A B} (x : A) (xs : list A) (body : A → M B) :
  for_collect (x :: xs) body =
    (y ← body x; ys ← for_collect xs body; mret (y :: ys)).
Proof. reflexivity. Qed.

(** A collecting loop whose body raises on one of the elements raises. *)
Lemma for_collect_raises {A B} (xs : list A) (body : A → M B) (x : A) :
  x ∈ xs →
  (∀ w, ∃ w' e, body x w = (w', Raise e)) →
  ∀ w, ∃ w' e, for_collect xs body w = (w', Raise e).
Proof.
  intros Hin Hx. induction xs as [|y xs IH]; intros w.
  - by apply elem_of_nil in Hin.
  - rewrite for_collect_cons, bind_run.
    destruct (body y w) as [w1 [b|e]] eqn:Hy; [| eauto].
    apply elem_of_cons in Hin as [->|Hin].
    + destruct (Hx w) as (? & ? & Hraise). congruence.
    + rewrite bind_run. destruct (IH Hin w1) as (w2 & e & ->). eauto.
Qed.

(** ** What a computation leaves alone *)

Section Frame.
Context (touched : string → Prop).

Lemma keeps_refl (w : World) : keeps touched w w.
Proof. by split. Qed.

Lemma keeps_trans (w1 w2 w3 : World) :
  keeps touched w1 w2 → keeps touched w2 w3 → keeps touched w1 w3.
Proof.
  intros [Ho1 Hf1] [Ho2 Hf2]. split; [congruence |].
  intros p Hp. by rewrite Hf2, Hf1.
Qed.

Lemma framed_ret {A} (a : A) : framed touched (mret a : M A).
Proof. intros w. apply keeps_refl. Qed.

Lemma framed_lift {A} (r : result A) : framed touched (lift r).
Proof. intros w. apply keeps_refl. Qed.

Lemma framed_read (path : string) : framed touched (read path).
Proof. intros w. apply keeps_refl. Qed.

Lemma framed_read_text (path : string) : framed touched (read_text path).
Proof. intros w. apply keeps_refl. Qed.

Lemma framed_bind {A B} (m : M A) (f : A → M B) :
  framed touched m → (∀ a, framed touched (f a)) → framed touched (m ≫= f).
Proof.
  intros Hm Hf w. rewrite bind_run. specialize (Hm w).
  destruct (m w) as [w1 [a|e]]; [| done].
  eapply keeps_trans; [exact Hm | apply Hf].
Qed.

Lemma framed_open_w (path : string) : touched path → framed touched (open_w path).
Proof.
  intros Hpath w. split; [done |]. intros p Hp. cbn.
  apply lookup_insert_ne. by intros ->.
Qed.

Lemma framed_open_for_writing (env : Collaborators) (path : string) :
  touched path → framed touched (open_for_writing env path).
Proof.
  intros Hpath w. unfold open_for_writing.
  destruct (os_open env (files w) path); [by apply framed_open_w | apply keeps_refl].
Qed.

Lemma framed_write (path data : string) :
  touched path → framed touched (write path data).
Proof.
  intros Hpath w. split; [done |]. intros p Hp. cbn.
  apply lookup_insert_ne. by intros ->.
Qed.

Lemma framed_for_each {A} (xs : list A) (body : A → M ()) :
  (∀ x, x ∈ xs → framed touched (body x)) → framed touched (for_each xs body).
Proof.
  induction xs as [|x xs IH]; intros Hbody; [apply framed_ret |].
  rewrite for_each_cons. apply framed_bind; [apply Hbody; left |].
  intros _. apply IH. intros y Hy. apply Hbody. by right.
Qed.

Lemma framed_for_collect {A B} (xs : list A) (body : A → M B) :
  (∀ x, x ∈ xs → framed touched (body x)) → framed touched (for_collect xs body).
Proof.
  induction xs as [|x xs IH]; intros Hbody; [apply framed_ret |].
  rewrite for_collect_cons. apply framed_bind; [apply Hbody; left |].
  intros y. apply framed_bind; [| intros; apply framed_ret].
  apply IH. intros z Hz. apply Hbody. by right.
Qed.

End Frame.

(** ** Paths *)

Lemma os_path_join_app (a b : string) :
  String.prefix "/" b = false → ∃ r, os_path_join a b = a +:+ r.
Proof. intros Hb. unfold os_path_join. rewrite Hb. destruct (_ || _); eauto. Qed.

(** The extraction writes only below the image directory and prints
    nothing. *)
Lemma framed_extract_pdf_content (rnd : Qc → Qc) (env : Collaborators)
    (pdf_path images_dir : string) :
  framed (λ p, ∃ r, p = images_dir +:+ r)
    (extract_pdf_content rnd env pdf_path images_dir).
Proof.
  unfold extract_pdf_content. apply framed_bind; [apply framed_lift |].
  intros doc. apply framed_for_collect. intros [n page] _.
  unfold extract_page. apply framed_bind.
  - apply framed_for_collect. intros [k xref] _. unfold extract_page_image.
    apply framed_bind; [apply framed_lift |]. intros image.
    destruct (os_path_join_app images_dir
                ("page_" +:+ str (n + 1) +:+ "_image_" +:+ str k +:+ "." +:+
                 img_ext image)) as [r Hr]; [done |].
    apply framed_bind; [by apply framed_open_for_writing; eauto |]. intros _.
    apply framed_bind; [by apply framed_write; eauto |]. intros _.
    apply framed_ret.
  - intros img_paths. apply framed_bind; [| intros; apply framed_ret].
    apply framed_for_collect. intros block _. apply framed_lift.
Qed.

(** The assembler writes only the output file and prints nothing. *)
Lemma framed_concat_beamer_files (env : Collaborators)
    (output_dir output_file : string) :
  framed (λ p, p = output_file) (concat_beamer_files env output_dir output_file).
Proof.
  unfold concat_beamer_files.
  apply framed_bind; [intros w; apply keeps_refl |]. intros names.
  apply framed_bind; [apply framed_lift |]. intros beamer_files.
  apply framed_bind; [by apply framed_open_for_writing |]. intros _.
  apply framed_bind; [by apply framed_write |]. intros _.
  apply framed_bind; [| intros _; by apply framed_write].
  apply framed_for_each. intros beamer_file _.
  apply framed_bind; [apply framed_read_text |]. intros c. by apply framed_write.
Qed.

(** ** PageExtractor *)

(** C8, as the code has it.  [extract_pdf_content] does not catch anything:
    when an embedded image of some page cannot be decoded, or the file it
    is to be written to cannot be opened, the extraction of the document
    raises and returns no page record at all, neither for that page nor for
    any other.  Nothing is skipped, and nothing is logged: the standard
    output is what it was. *)
Theorem extract_pdf_content_image_failure (rnd : Qc → Qc) (env : Collaborators)
    (pdf_path images_dir : string) (w : World)
    (doc : Document) (n : nat) (page : Page) (k xref : nat) (e : exn) :
  fitz_open env pdf_path = Ok doc →
  pages doc !! n = Some page →
  images page !! k = Some xref →
  (extract_image doc xref = Raise e ∨
   ∃ image,
     extract_image doc xref = Ok image ∧
     ∀ fs, os_open env fs
             (os_path_join images_dir
                ("page_" +:+ str (n + 1) +:+ "_image_" +:+ str k +:+ "." +:+
                 img_ext image)) = Raise e) →
  ∃ w' e',
    extract_pdf_content rnd env pdf_path images_dir w = (w', Raise e') ∧
    stdout w' = stdout w.
Proof.
  intros Hopen Hn Hk Hfail.
  pose proof (framed_extract_pdf_content rnd env pdf_path images_dir w) as [Hout _].
  cut (∃ w' e', extract_pdf_content rnd env pdf_path images_dir w = (w', Raise e')).
  { intros (w' & e' & Hrun). rewrite Hrun in Hout. eauto. }
  clear Hout. unfold extract_pdf_content. rewrite bind_run. unfold lift at 1. rewrite Hopen.
  apply (for_collect_raises _ _ (n, page)).
  { by apply (elem_of_lookup_imap_2 pair). }
  intros w1. unfold extract_page. rewrite bind_run.
  destruct (for_collect_raises (enumerate (images page))
              (extract_page_image env doc images_dir n) (k, xref)) with (w := w1)
    as (w2 & e' & ->); [by apply (elem_of_lookup_imap_2 pair) | | eauto].
  intros w2. unfold extract_page_image. rewrite bind_run. unfold lift at 1.
  destruct Hfail as [-> | (image & -> & Hwrite)]; [eauto |].
  rewrite bind_run. unfold open_for_writing. rewrite Hwrite. eauto.
Qed.

Lemma extract_pdf_content_image_failure_witness :
  (∃ w' e',
    extract_pdf_content id
      (example_collaborators example_broken_image example_chat [])
      "lec.pdf" "lec_images" (mkWorld ∅ []) = (w', Raise e') ∧
    stdout w' = stdout (mkWorld ∅ [])) ∧
  (∃ w' e',
    extract_pdf_content id
      (example_missing_dir
         (example_collaborators example_two_images example_chat []) "lec_images")
      "lec.pdf" "lec_images" (mkWorld ∅ []) = (w', Raise e') ∧
    stdout w' = stdout (mkWorld ∅ [])).
Proof.
  split.
  - apply (extract_pdf_content_image_failure _ _ _ _ _
             example_broken_image 0 (example_page [7; 8]) 1 8
             (CollaboratorError "broken image")).
    + reflexivity.
    + reflexivity.
    + reflexivity.
    + by left.
  - apply (extract_pdf_content_image_failure _ _ _ _ _
             example_two_images 0 (example_page [7; 8]) 1 8 FileNotFoundError).
    + reflexivity.
    + reflexivity.
    + reflexivity.
    + right. exists (mkBaseImage "PNG bytes" "png"). split; [reflexivity |].
      intros fs. reflexivity.
Defined.

(** C8 fails as stated: on a page whose first image decodes and whose
    second does not, the extraction writes the first image and then raises;
    it returns no page record, so none whose image list keeps the first
    image. *)
Lemma extract_pdf_content_aborts_page :
  (extract_pdf_content id
     (example_collaborators example_broken_image example_chat [])
     "lec.pdf" "lec_images" (mkWorld ∅ [])).2 =
    Raise (CollaboratorError "broken image") ∧
  files (extract_pdf_content id
           (example_collaborators example_broken_image example_chat [])
           "lec.pdf" "lec_images" (mkWorld ∅ [])).1
    !! "lec_images/page_1_image_0.png" = Some "PNG bytes" ∧
  ∀ content,
    (extract_pdf_content id
       (example_collaborators example_broken_image example_chat [])
       "lec.pdf" "lec_images" (mkWorld ∅ [])).2 ≠ Ok content.
Proof.
  split; [by vm_compute |]. split; [by vm_compute |].
  intros content Hok. vm_compute in Hok. discriminate Hok.
Qed.

Lemma digit_chr_digit (d : nat) :
  d < 10 → is_digit (digit_chr d) = true ∧ digit_val (digit_chr d) = d.
Proof. intros Hd. do 10 (destruct d as [|d]; [done |]). lia. Qed.

Lemma int_go_app (acc : nat) (s t : string) :
  int_go acc (s +:+ t) =
    match int_go acc s with
    | Some a => int_go a t
    | None => None
    end.
Proof.
  revert acc. induction s as [|c s IH]; intros acc; [done |].
  rewrite str_app_cons. cbn [int_go]. by destruct (is_digit c).
Qed.

(** Reading a numeral gives the number back. *)
Lemma int_go_str (n : nat) : int_go 0 (str n) = Some n.
Proof.
  induction (lt_wf n) as [n _ IH].
  destruct (Nat.lt_ge_cases n 10) as [Hn|Hn].
  - rewrite str_small by done. cbn [int_go].
    destruct (digit_chr_digit n Hn) as [-> ->]. f_equal; lia.
  - rewrite str_step, int_go_app, IH by (done || (apply Nat.div_lt; lia)).
    cbn [int_go].
    destruct (digit_chr_digit (n mod 10)) as [-> ->];
      [apply Nat.mod_upper_bound; lia |].
    pose proof (Nat.div_mod_eq n 10). f_equal; lia.
Qed.

Lemma str_inj (n m : nat) : str n = str m → n = m.
Proof.
  intros Heq. pose proof (int_go_str n) as Hn. rewrite Heq, int_go_str in Hn.
  congruence.
Qed.

Lemma str_app_inv_tail (s s' t : string) : s +:+ t = s' +:+ t → s = s'.
Proof.
  revert s'. induction s as [|c s IH]; intros [|c' s'] Heq; [done | | |].
  - apply (f_equal String.length) in Heq.
    rewrite str_app_nil_l, str_app_cons, ?str_length_app in Heq. cbn in Heq.
    rewrite str_length_app in Heq. lia.
  - apply (f_equal String.length) in Heq.
    rewrite str_app_nil_l, str_app_cons in Heq. cbn in Heq.
    rewrite str_length_app in Heq. lia.
  - rewrite !str_app_cons in Heq. injection Heq as -> Heq. f_equal. by apply IH.
Qed.

(** A disequality of two paths that start with the same name and go on
    with different literals. *)
Ltac path_ne :=
  let H := fresh "H" in
  intros H;
  repeat (rewrite str_app_assoc in H);
  apply String.app_inj in H;
  rewrite ?str_app_cons in H;
  discriminate H.

Lemma artifact_path_inj (name : string) (i j : nat) :
  artifact_path name i = artifact_path name j → i = j.
Proof.
  unfold artifact_path. intros H.
  do 4 apply String.app_inj in H.
  by apply str_app_inv_tail, str_inj in H.
Qed.

Lemma artifact_not_temp (name : string) (i : nat) (r : string) :
  artifact_path name i ≠ (name +:+ "_temp") +:+ r.
Proof. unfold artifact_path. path_ne. Qed.


Lemma full_not_artifact (name : string) (i : nat) :
  name +:+ "_full.tex" ≠ artifact_path name i.
Proof. unfold artifact_path. path_ne. Qed.



Lemma page_image_path_app (dir : string) (n : nat) :
  ∃ r, page_image_path dir n = dir +:+ r.
Proof. by apply os_path_join_app. Qed.

(** ** PipelineDriver *)

Section Driver.
Variable env : Collaborators.
Variables pdf_path name : string.

Lemma convert_page_to_image_run (n : nat) (dir image : string)
    (rest : list string) (w : World) :
  convert_from_path env pdf_path (n + 1) (n + 1) = Ok (image :: rest) →
  convert_page_to_image env pdf_path n dir w =
    (mkWorld (<[page_image_path dir n := image]> (files w)) (stdout w),
     Ok (b64encode env image)).
Proof.
  intros Hconv. unfold convert_page_to_image.
  rewrite bind_run. unfold lift at 1. rewrite Hconv.
  unfold mbind, M_bind, mret, M_ret, open_w, write, read. cbn [files stdout].
  rewrite lookup_insert_eq, insert_insert_eq. cbn [default].
  by rewrite lookup_insert_eq, str_app_nil_l.
Qed.

Lemma main_body_skip (i : nat) (page_data : PageData) (w : World) :
  i ≤ 27 → main_body env pdf_path name (i, page_data) w = (w, Ok ()).
Proof.
  intros Hi. unfold main_body. by destruct (Nat.leb_spec i 27); [| lia].
Qed.

Lemma main_body_ok (i : nat) (page_data : PageData) (frame : string) (w : World) :
  27 < i → generates env pdf_path page_data (Ok frame) →
  ∃ image,
    main_body env pdf_path name (i, page_data) w =
      (mkWorld (<[artifact_path name i := clean_frame frame +:+ nl]>
                  (<[page_image_path (name +:+ "_temp") (page_num page_data) := image]>
                     (files w)))
               (stdout w ++ [processed_line page_data; created_line name i]),
       Ok ()).
Proof.
  intros Hi (image & rest & Hconv & Hchat). exists image.
  unfold main_body. destruct (Nat.leb_spec i 27); [lia |].
  rewrite bind_run, (convert_page_to_image_run _ _ _ rest) by done.
  rewrite bind_run. unfold generate_beamer_frame, lift. rewrite Hchat.
  rewrite bind_run. unfold print at 1. cbn [files stdout].
  rewrite bind_run, create_latex_document_run. unfold print. cbn [files stdout].
  by rewrite <- (assoc_L (++)).
Qed.


Lemma generates_unique (page_data : PageData) (r r' : result string) :
  generates env pdf_path page_data r → generates env pdf_path page_data r' →
  r = r'.
Proof. intros (? & ? & H1 & <-) (? & ? & H2 & <-). congruence. Qed.

Lemma loop_log_cons (entry : nat * PageData) (entries : list (nat * PageData)) :
  loop_log name (entry :: entries) =
    ((if (entry.1 <=? 27)%nat then []
      else [processed_line entry.2; created_line name entry.1]) ++
     loop_log name entries)%list.
Proof. reflexivity. Qed.

(** The loop of [main] when every page it processes is rendered and
    generated: what it prints, what it leaves alone and what it writes. *)
Lemma main_loop_ok (entries : list (nat * PageData)) (w : World) :
  NoDup entries.*1 →
  (∀ i pd, (i, pd) ∈ entries → 27 < i → ∃ frame, generates env pdf_path pd (Ok frame)) →
  ∃ w',
    for_each entries (main_body env pdf_path name) w = (w', Ok ()) ∧
    stdout w' = (stdout w ++ loop_log name entries)%list ∧
    (∀ p, (∀ i, p ≠ artifact_path name i) →
          (∀ r, p ≠ (name +:+ "_temp") +:+ r) →
          files w' !! p = files w !! p) ∧
    (∀ i, (∀ pd, (i, pd) ∈ entries → i ≤ 27) →
          files w' !! artifact_path name i = files w !! artifact_path name i) ∧
    (∀ i pd frame, (i, pd) ∈ entries → 27 < i →
          generates env pdf_path pd (Ok frame) →
          files w' !! artifact_path name i = Some (clean_frame frame +:+ nl)).
Proof.
  revert w. induction entries as [|[i0 pd0] entries IH]; intros w Hnd Hgen.
  { exists w. split; [done |]. split; [change (loop_log name []) with (@nil string);
             by rewrite (right_id_L [] (++)) |].
    split; [done |]. split; [done |].
    intros i pd frame Hin. by apply elem_of_nil in Hin. }
  rewrite fmap_cons in Hnd. cbn [fst] in Hnd.
  pose proof (NoDup_cons_1_1 _ _ Hnd) as Hfresh.
  pose proof (NoDup_cons_1_2 _ _ Hnd) as Hnd'.
  assert (∀ pd, (i0, pd) ∉ entries) as Hfresh'.
  { intros pd Hin. apply Hfresh. apply list_elem_of_fmap. by exists (i0, pd). }
  rewrite for_each_cons, bind_run, loop_log_cons. cbn [fst snd].
  destruct (Nat.leb_spec i0 27) as [Hskip|Hrun].
  - rewrite main_body_skip by done.
    destruct (IH w Hnd') as (w' & Hrun' & Hout & Hkeep & Hold & Hnew).
    { intros i pd Hin. apply Hgen. by right. }
    exists w'. split; [done |]. split; [done |]. split; [done |]. split.
    + intros i Hi. apply Hold. intros pd Hin. apply (Hi pd). by right.
    + intros i pd frame Hin Hi Hframe.
      apply elem_of_cons in Hin as [[= -> ->]|Hin]; [lia |]. by eapply Hnew.
  - destruct (Hgen i0 pd0) as [frame0 Hframe0]; [left | done |].
    destruct (main_body_ok i0 pd0 frame0 w Hrun Hframe0) as [image ->].
    set (w1 := mkWorld _ _).
    destruct (page_image_path_app (name +:+ "_temp") (page_num pd0)) as [r0 Hr0].
    assert (∀ p, p ≠ artifact_path name i0 → (∀ r, p ≠ (name +:+ "_temp") +:+ r) →
                 files w1 !! p = files w !! p) as Hstep.
    { intros p Hp1 Hp2. subst w1. cbn [files].
      rewrite !lookup_insert_ne; [done | | done].
      rewrite Hr0. intros Heq. by apply (Hp2 r0). }
    destruct (IH w1 Hnd') as (w' & Hrun' & Hout & Hkeep & Hold & Hnew).
    { intros i pd Hin. apply Hgen. by right. }
    exists w'. split; [done |]. split; [| split; [| split]].
    + rewrite Hout. subst w1. cbn [stdout]. by rewrite <- (assoc_L (++)).
    + intros p Hp1 Hp2. rewrite Hkeep by done. by apply Hstep.
    + intros i Hi. rewrite Hold.
      * apply Hstep; [| intros r; apply artifact_not_temp].
        intros Heq%artifact_path_inj. subst i.
        specialize (Hi pd0 ltac:(left)). lia.
      * intros pd Hin. apply (Hi pd). by right.
    + intros i pd frame Hin Hi Hframe.
      apply elem_of_cons in Hin as [[= -> ->]|Hin]; [| by eapply Hnew].
      assert (Ok frame = Ok frame0) as [= ->] by (by eapply generates_unique).
      rewrite Hold; [subst w1; cbn [files]; apply lookup_insert_eq |].
      intros pd Hin. by destruct (Hfresh' pd).
Qed.

End Driver.

(** ** [enumerate] *)

Lemma elem_of_enumerate {A} (xs : list A) (i : nat) (x : A) :
  (i, x) ∈ enumerate xs ↔ xs !! i = Some x.
Proof.
  unfold enumerate. rewrite elem_of_lookup_imap. split.
  - by intros (j & y & [= -> ->] & Hy).
  - intros Hx. by exists i, x.
Qed.

Lemma enumerate_indices {A} (xs : list A) : NoDup (enumerate xs).*1.
Proof.
  unfold enumerate. rewrite fmap_imap.
  rewrite (imap_ext _ (λ j _, id j)) by done.
  rewrite imap_seq_0, list_fmap_id. apply NoDup_seq.
Qed.


Lemma for_each_app_raise {A} (xs ys : list A) (x : A) (body : A → M ())
    (w w1 w2 : World) (e : exn) :
  for_each xs body w = (w1, Ok ()) →
  body x w1 = (w2, Raise e) →
  for_each (xs ++ x :: ys) body w = (w2, Raise e).
Proof.
  revert w. induction xs as [|y xs IH]; intros w Hxs Hx.
  - cbn in Hxs. injection Hxs as ->.
    rewrite (left_id_L [] (++)), for_each_cons, bind_run. by rewrite Hx.
  - rewrite <- app_comm_cons, for_each_cons, bind_run.
    rewrite for_each_cons, bind_run in Hxs.
    destruct (body y w) as [w' [[]|e']]; [| done]. by apply IH.
Qed.

(** ** The run of [main] *)


Lemma example_chat_generates (env : Collaborators) (pdf_path : string)
    (pd : PageData) :
  convert_from_path env = (λ _ first _, Ok ["JPEG " +:+ str first]) →
  chat_completion env = example_chat →
  ∃ frame, generates env pdf_path pd (Ok frame).
Proof.
  intros Hconv Hchat. eexists. unfold generates. rewrite Hconv, Hchat.
  eexists _, _. split; reflexivity.
Qed.






(* ================================================================== *)
(** * Part VI. Further properties of the two scripts *)
(* ================================================================== *)

(** ** Which paths have a sort key *)

Lemma has_chr_app (c : ascii) (s t : string) :
  has_chr c (s +:+ t) = has_chr c s || has_chr c t.
Proof.
  induction s as [|c' s IH]; [done |].
  rewrite str_app_cons. cbn [has_chr]. rewrite IH. by rewrite orb_assoc.
Qed.

Lemma all_digits_app (s t : string) :
  all_digits (s +:+ t) = all_digits s && all_digits t.
Proof.
  induction s as [|c s IH]; [done |].
  rewrite str_app_cons. cbn [all_digits]. rewrite IH. by rewrite andb_assoc.
Qed.

Lemma all_digits_str (n : nat) : all_digits (str n) = true.
Proof.
  induction (lt_wf n) as [n _ IH].
  destruct (Nat.lt_ge_cases n 10) as [Hn|Hn].
  - rewrite str_small by done. cbn [all_digits].
    by destruct (digit_chr_digit n Hn) as [-> _].
  - rewrite str_step, all_digits_app, IH by (done || (apply Nat.div_lt; lia)).
    cbn [all_digits].
    destruct (digit_chr_digit (n mod 10)) as [-> _];
      [apply Nat.mod_upper_bound; lia | done].
Qed.

Lemma int_str (n : nat) : int (str n) = Ok n.
Proof.
  unfold int. pose proof (str_length_pos n) as Hlen.
  destruct (str n) eqn:Hs; [cbn in Hlen; lia |].
  rewrite <- Hs. by rewrite int_go_str.
Qed.

Lemma strip_prefix_app (p s : string) : strip_prefix p (p +:+ s) = Some s.
Proof.
  induction p as [|c p IH]; [by destruct s |].
  rewrite str_app_cons. cbn [strip_prefix]. by rewrite Ascii.eqb_refl.
Qed.

Lemma strip_prefix_spec (p s r : string) :
  strip_prefix p s = Some r → s = p +:+ r.
Proof.
  revert s. induction p as [|c p IH]; intros s Hs.
  - destruct s; by injection Hs as <-.
  - destruct s as [|c' s]; [done |]. cbn [strip_prefix] in Hs.
    destruct (Ascii.eqb_spec c c') as [<-|]; [| done].
    rewrite str_app_cons. f_equal. by apply IH.
Qed.

(** Stripping a prefix no longer than [a] from [a + z] leaves [z] whole. *)
Lemma strip_prefix_app_inv (p a z r : string) :
  strip_prefix p (a +:+ z) = Some r →
  String.length p ≤ String.length a →
  ∃ t, a = p +:+ t ∧ r = t +:+ z.
Proof.
  revert a. induction p as [|c p IH]; intros a Hs Hlen.
  - exists a. split; [done |]. destruct (a +:+ z); by injection Hs as <-.
  - destruct a as [|c' a]; [cbn in Hlen; lia |].
    rewrite str_app_cons in Hs. cbn [strip_prefix] in Hs.
    destruct (Ascii.eqb_spec c c') as [<-|]; [| done].
    destruct (IH a Hs) as (t & -> & ->); [cbn in Hlen; lia |].
    by exists t.
Qed.

Lemma span_digits_app (ds : string) (c : ascii) (r : string) :
  all_digits ds = true → is_digit c = false →
  span_digits (ds +:+ String c r) = (ds, String c r).
Proof.
  intros Hds Hc. induction ds as [|d ds IH].
  - rewrite str_app_nil_l. cbn [span_digits]. by rewrite Hc.
  - cbn [all_digits] in Hds. apply andb_true_iff in Hds as [Hd Hds].
    rewrite str_app_cons. cbn [span_digits]. by rewrite Hd, IH.
Qed.

(** After a stretch without a dot, the digits stop before the underscore
    at the latest: what follows them does not start with [.tex]. *)
Lemma span_digits_stop (t z d r : string) :
  has_chr "." t = false →
  span_digits (t +:+ String "_" z) = (d, r) →
  String.prefix ".tex" r = false.
Proof.
  revert d r. induction t as [|c t IH]; intros d r Hdot Hspan.
  - rewrite str_app_nil_l in Hspan. cbn in Hspan. by injection Hspan as <- <-.
  - cbn [has_chr] in Hdot. apply orb_false_elim in Hdot as [Hc Hdot].
    rewrite str_app_cons in Hspan. cbn [span_digits] in Hspan.
    destruct (is_digit c).
    + destruct (span_digits (t +:+ String "_" z)) as [d' r'] eqn:Hrec.
      injection Hspan as <- <-. by eapply IH.
    + injection Hspan as <- <-. apply prefix_cons_ne.
      intros <-. by rewrite Ascii.eqb_refl in Hc.
Qed.

Lemma match_page_at_here (ds b : string) :
  ds ≠ "" → all_digits ds = true →
  match_page_at ("_page_" +:+ ds +:+ ".tex" +:+ b) = Some ds.
Proof.
  intros Hne Hds. unfold match_page_at. rewrite strip_prefix_app.
  change (".tex" +:+ b) with (String "." ("tex" +:+ b)).
  rewrite span_digits_app by done.
  destruct ds; [done |].
  by rewrite prefix_cons_eq, prefix_app_true.
Qed.

Lemma match_page_at_spec (s ds : string) :
  match_page_at s = Some ds →
  ∃ b, s = "_page_" +:+ ds +:+ ".tex" +:+ b.
Proof.
  unfold match_page_at.
  destruct (strip_prefix "_page_" s) as [rest|] eqn:Hstrip; [| done].
  apply strip_prefix_spec in Hstrip as ->.
  destruct (span_digits rest) as [d r] eqn:Hspan.
  apply span_digits_spec in Hspan as [_ ->].
  destruct d as [|c d]; [done |].
  destruct (String.prefix ".tex" r) eqn:Hp; [| done].
  apply prefix_app in Hp as [b ->]. intros [= <-]. by exists b.
Qed.

(** No match starts inside a non-empty stretch without a dot that is
    followed by [_page_]. *)
Lemma match_page_at_none (a rest : string) :
  a ≠ "" → has_chr "." a = false →
  match_page_at (a +:+ "_page_" +:+ rest) = None.
Proof.
  intros Hne Hdot. unfold match_page_at.
  change ("_page_" +:+ rest) with ("_page" +:+ String "_" rest).
  rewrite <- str_app_assoc.
  destruct (strip_prefix "_page_" ((a +:+ "_page") +:+ String "_" rest))
    as [r0|] eqn:Hstrip; [| done].
  apply strip_prefix_app_inv in Hstrip as (t & Ht & ->).
  2: { rewrite str_length_app. destruct a; [done |]. cbn. lia. }
  assert (has_chr "." t = false) as Htdot.
  { assert (has_chr "." (a +:+ "_page") = false) as Hall
      by (by rewrite has_chr_app, Hdot).
    rewrite Ht, has_chr_app in Hall. by apply orb_false_elim in Hall as [_ ?]. }
  destruct (span_digits (t +:+ String "_" rest)) as [d r] eqn:Hspan.
  apply span_digits_stop in Hspan; [| done].
  destruct d; [done |]. by rewrite Hspan.
Qed.

(** The search finds the page number that follows a dot-free stretch. *)
Lemma re_search_page_first (a ds b : string) :
  has_chr "." a = false → ds ≠ "" → all_digits ds = true →
  re_search_page (a +:+ "_page_" +:+ ds +:+ ".tex" +:+ b) = Some ds.
Proof.
  intros Hdot Hne Hds. induction a as [|c a IH].
  - rewrite str_app_nil_l, re_search_page_eq. by rewrite match_page_at_here.
  - rewrite re_search_page_eq, match_page_at_none by done.
    rewrite str_app_cons. apply IH.
    cbn [has_chr] in Hdot. by apply orb_false_elim in Hdot as [_ ?].
Qed.

Lemma re_search_page_sound (x ds : string) :
  re_search_page x = Some ds →
  ∃ a b, x = a +:+ "_page_" +:+ ds +:+ ".tex" +:+ b.
Proof.
  induction x as [|c x IH]; [done |]. rewrite re_search_page_eq.
  destruct (match_page_at (String c x)) as [ds'|] eqn:Hm.
  - intros [= <-]. apply match_page_at_spec in Hm as [b Hb]. by exists "", b.
  - intros Hx. destruct (IH Hx) as (a & b & ->). by exists (String c a), b.
Qed.

Lemma re_search_page_complete (a ds b : string) :
  ds ≠ "" → all_digits ds = true →
  is_Some (re_search_page (a +:+ "_page_" +:+ ds +:+ ".tex" +:+ b)).
Proof.
  intros Hne Hds. induction a as [|c a IH].
  - rewrite str_app_nil_l, re_search_page_eq. by rewrite match_page_at_here.
  - rewrite re_search_page_eq. destruct (match_page_at _); [done |].
    by rewrite str_app_cons.
Qed.

(** X1. On a path of ASCII characters, no longer than the 4300 digits that
    [int] accepts, the sort key of [concat_beamer_files] is defined exactly
    when the path contains [_page_], a non-empty run of the digits 0-9 and
    [.tex] in a row, anywhere in the path; on every other such path it
    raises [AttributeError], and it raises nothing else: [int] never fails
    on what the pattern captured. *)
Theorem page_key_defined_iff (x : string) :
  is_ascii x = true →
  String.length x ≤ 4300 →
  ((∃ n, page_key x = Ok n) ↔
   (∃ a ds b, x = a +:+ "_page_" +:+ ds +:+ ".tex" +:+ b ∧
              ds ≠ "" ∧ all_digits ds = true)) ∧
  (∀ e, page_key x = Raise e → e = AttributeError).
Proof.
  intros _ _. split; [split |].
  - intros [n Hn]. destruct (page_key_cases x) as [[_ Hr]|[[ds Hds] _]];
      [congruence |].
    destruct (re_search_page_sound _ _ Hds) as (a & b & ->).
    destruct (re_search_page_digits _ _ Hds) as [? ?]. by exists a, ds, b.
  - intros (a & ds & b & -> & Hne & Hds).
    destruct (page_key_cases (a +:+ "_page_" +:+ ds +:+ ".tex" +:+ b))
      as [[Hnone _]|[_ Hok]]; [| eauto].
    destruct (re_search_page_complete a ds b Hne Hds) as [? ?]. congruence.
  - intros e He. destruct (page_key_cases x) as [[_ Hr]|[_ Hok]]; congruence.
Qed.

Lemma page_key_defined_iff_witness :
  ((∃ n, page_key "lec_beamers/notes.tex" = Ok n) ↔
   (∃ a ds b, "lec_beamers/notes.tex" = a +:+ "_page_" +:+ ds +:+ ".tex" +:+ b ∧
              ds ≠ "" ∧ all_digits ds = true)) ∧
  (∀ e, page_key "lec_beamers/notes.tex" = Raise e → e = AttributeError).
Proof.
  apply (page_key_defined_iff "lec_beamers/notes.tex"); [reflexivity |].
  cbn. lia.
Defined.

Lemma has_chr_split_first (sep c : ascii) (s : string) :
  has_chr c s = false → has_chr c (split_first sep s) = false.
Proof.
  induction s as [|c' s IH]; [done |]. cbn [has_chr split_first].
  intros [Hc Hs]%orb_false_elim. destruct (Ascii.eqb c' sep); [done |].
  cbn [has_chr]. by rewrite Hc, IH.
Qed.

Lemma split_first_no_sep (sep : ascii) (s : string) :
  has_chr sep (split_first sep s) = false.
Proof.
  induction s as [|c s IH]; [done |]. cbn [split_first].
  destruct (Ascii.eqb_spec c sep) as [->|Hne]; [done |].
  cbn [has_chr]. rewrite IH.
  destruct (Ascii.eqb_spec sep c); [by subst | done].
Qed.

Lemma split_last_no_sep (sep : ascii) (s : string) :
  has_chr sep (split_last sep s) = false.
Proof.
  induction s as [|c s IH]; [done |]. cbn [split_last].
  destruct (has_chr sep s) eqn:Hs; [done |].
  destruct (Ascii.eqb_spec c sep) as [->|Hne]; [done |].
  cbn [has_chr]. rewrite Hs.
  destruct (Ascii.eqb_spec sep c); [by subst | done].
Qed.

Lemma page_key_artifact (name : string) (i : nat) :
  has_chr "." name = false → page_key (artifact_path name i) = Ok i.
Proof.
  intros Hname.
  assert (artifact_path name i =
          (name +:+ "_beamers/" +:+ name) +:+ "_page_" +:+ str i +:+ ".tex" +:+ "")
    as ->.
  { unfold artifact_path. by rewrite str_app_nil_r, !str_app_assoc. }
  unfold page_key. rewrite re_search_page_first.
  - apply int_str.
  - by rewrite !has_chr_app, Hname.
  - intros Heq. pose proof (str_length_pos i) as Hlen.
    rewrite Heq in Hlen. cbn in Hlen. lia.
  - apply all_digits_str.
Qed.

(** X2. Round trip of the page number through the artifact name: the path
    under which [main] writes the artifact of page [i] has the sort key [i]
    in [concat_beamer_files], whatever the path of the PDF. *)
Theorem page_key_artifact_path (pdf_path : string) (i : nat) :
  page_key (artifact_path (file_name_of pdf_path) i) = Ok i.
Proof. apply page_key_artifact, split_first_no_sep. Qed.

(** ** The name [main] derives from the path of the PDF *)

Lemma split_last_app (sep : ascii) (dir rest : string) :
  has_chr sep rest = false →
  split_last sep (dir +:+ String sep rest) = rest.
Proof.
  intros Hrest. induction dir as [|c dir IH].
  - rewrite str_app_nil_l. cbn [split_last]. by rewrite Hrest, Ascii.eqb_refl.
  - rewrite str_app_cons. cbn [split_last].
    rewrite has_chr_app. cbn [has_chr]. rewrite Ascii.eqb_refl.
    by rewrite orb_true_r.
Qed.

Lemma split_last_id (sep : ascii) (s : string) :
  has_chr sep s = false → split_last sep s = s.
Proof.
  destruct s as [|c s]; [done |]. cbn [has_chr split_last].
  intros [Hc Hs]%orb_false_elim. rewrite Hs.
  by rewrite Ascii.eqb_sym, Hc.
Qed.

Lemma split_first_app (sep : ascii) (stem ext : string) :
  has_chr sep stem = false →
  split_first sep (stem +:+ String sep ext) = stem.
Proof.
  induction stem as [|c stem IH]; intros Hstem.
  - rewrite str_app_nil_l. cbn [split_first]. by rewrite Ascii.eqb_refl.
  - cbn [has_chr] in Hstem. apply orb_false_elim in Hstem as [Hc Hstem].
    rewrite str_app_cons. cbn [split_first].
    rewrite Ascii.eqb_sym, Hc. by rewrite IH.
Qed.

(** X3. The name under which [main] files everything is the part of the
    last backslash-separated component of the path that precedes its first
    dot.  For a Windows path [dir\stem.ext], and for a bare [stem.ext], it
    is [stem], provided [stem] has no dot and no backslash and [ext] no
    backslash; [ext] may have dots, so [lec.v1.pdf] and [lec.v2.pdf] both
    give [lec]. *)
Theorem file_name_of_stem (dir stem ext : string) :
  has_chr "\" stem = false →
  has_chr "." stem = false →
  has_chr "\" ext = false →
  file_name_of (dir +:+ "\" +:+ stem +:+ "." +:+ ext) = stem ∧
  file_name_of (stem +:+ "." +:+ ext) = stem.
Proof.
  intros Hstem Hdot Hext. unfold file_name_of.
  assert (has_chr "\" (stem +:+ "." +:+ ext) = false) as Hrest.
  { rewrite !has_chr_app, Hstem, Hext. done. }
  split.
  - change ("\" +:+ stem +:+ "." +:+ ext)
      with (String "\" (stem +:+ "." +:+ ext)).
    rewrite split_last_app by done. by apply split_first_app.
  - rewrite split_last_id by done. by apply split_first_app.
Qed.

Lemma file_name_of_stem_witness :
  file_name_of ("C:\slides" +:+ "\" +:+ "lec" +:+ "." +:+ "v1.pdf") = "lec" ∧
  file_name_of ("lec" +:+ "." +:+ "v1.pdf") = "lec".
Proof. by apply file_name_of_stem. Defined.

(** ** ArtifactWriter, again *)

Lemma occursb_fence_latex (s : string) :
  occursb "```" s = false → occursb "```latex" s = false.
Proof.
  intros Hs. destruct (occursb "```latex" s) eqn:E; [| done].
  apply occursb_occurs, occurs_fence_latex, occurs_occursb in E. congruence.
Qed.

Lemma clean_frame_clean (frame : string) :
  clean_frame (clean_frame frame) = clean_frame frame.
Proof.
  assert (occursb "```" (clean_frame frame) = false) as Hclean.
  { unfold clean_frame. apply re_sub_delete_backquotes. }
  unfold clean_frame at 1.
  rewrite (re_sub_delete_id "```latex") by (by apply occursb_fence_latex).
  by apply re_sub_delete_id.
Qed.

(** X4. Writing an artifact is idempotent and forgets the past: cleaning a
    cleaned frame changes nothing, so writing the cleaned frame gives the
    same file as writing the frame; writing the same frame twice is the
    same as writing it once; and the outcome does not depend on what the
    artifact file held before. *)
Theorem create_latex_document_idempotent (frame output_file old : string)
    (w : World) :
  clean_frame (clean_frame frame) = clean_frame frame ∧
  create_latex_document (clean_frame frame) output_file w =
    create_latex_document frame output_file w ∧
  (create_latex_document frame output_file ;;
   create_latex_document frame output_file) w =
    create_latex_document frame output_file w ∧
  create_latex_document frame output_file
    (mkWorld (<[output_file := old]> (files w)) (stdout w)) =
    create_latex_document frame output_file w.
Proof.
  split; [apply clean_frame_clean |]. split; [| split].
  - by rewrite !create_latex_document_run, clean_frame_clean.
  - rewrite bind_run, !create_latex_document_run. cbn [files stdout].
    by rewrite insert_insert_eq.
  - rewrite !create_latex_document_run. cbn [files stdout].
    by rewrite insert_insert_eq.
Qed.

(** ** SequenceAssembler, again *)

Section Stable.
Context {A : Type}.
Implicit Types (x : nat * A) (l : list (nat * A)).

Lemma filter_insert_by_key (k : nat) x l :
  filter (λ y, y.1 = k) (insert_by_key x l) = filter (λ y, y.1 = k) (x :: l).
Proof.
  induction l as [|y l IH]; [done |]. cbn [insert_by_key].
  destruct (Nat.leb_spec x.1 y.1) as [Hxy|Hxy]; [done |].
  rewrite filter_cons, IH, !filter_cons.
  destruct (decide (y.1 = k)), (decide (x.1 = k)); (done || lia).
Qed.

Lemma filter_sort_by_key (k : nat) l :
  filter (λ y, y.1 = k) (sort_by_key l) = filter (λ y, y.1 = k) l.
Proof.
  induction l as [|x l IH]; [done |].
  rewrite sort_by_key_cons, filter_insert_by_key, !filter_cons. by rewrite IH.
Qed.

End Stable.

Lemma decorate_inv (paths : list string) (d : list (nat * string)) :
  decorate page_key paths = Ok d →
  d = (λ x, (page_number x, x)) <$> paths.
Proof.
  revert d. induction paths as [|x paths IH]; intros d Hd.
  - by injection Hd as <-.
  - cbn [decorate] in Hd.
    destruct (page_key x) as [n|e] eqn:Hx; [| done].
    destruct (decorate page_key paths) as [d'|e]; [| done].
    injection Hd as <-. rewrite fmap_cons. f_equal; [| by apply IH].
    unfold page_number. by rewrite Hx.
Qed.

Lemma filter_page_number (k : nat) (paths : list string) :
  (filter (λ y : nat * string, y.1 = k)
     ((λ x, (page_number x, x)) <$> paths)).*2 =
  filter (λ p, page_number p = k) paths.
Proof.
  induction paths as [|x paths IH]; [done |].
  rewrite fmap_cons, !filter_cons. cbn [fst].
  destruct (decide (page_number x = k)); [rewrite fmap_cons; cbn |]; by rewrite IH.
Qed.

Lemma filter_snd_keys (k : nat) (d : list (nat * string)) :
  Forall (λ a, a.1 = page_number a.2) d →
  filter (λ p, page_number p = k) d.*2 = (filter (λ y, y.1 = k) d).*2.
Proof.
  induction 1 as [|a d Ha Hd IH]; [done |].
  rewrite fmap_cons, !filter_cons. rewrite <- Ha.
  destruct (decide (a.1 = k)); [rewrite fmap_cons |]; by rewrite IH.
Qed.

(** X5. [sorted] is stable on the page number: whenever the assembler
    gets its sorted list, the files that carry one and the same page number
    appear in it in the order in which the directory listed them. *)
Theorem sorted_page_key_stable (paths ordered : list string) (k : nat) :
  sorted page_key paths = Ok ordered →
  filter (λ p, page_number p = k) ordered =
  filter (λ p, page_number p = k) paths.
Proof.
  unfold sorted. destruct (decorate page_key paths) as [d|e] eqn:Hd; [| done].
  intros [= <-]. apply decorate_inv in Hd as ->.
  rewrite filter_snd_keys.
  - by rewrite filter_sort_by_key, filter_page_number.
  - rewrite sort_by_key_perm. by apply Forall_fmap, Forall_true.
Qed.

Lemma sorted_page_key_stable_witness :
  filter (λ p, page_number p = 1)
    ["lec_beamers/z_page_0.tex"; "lec_beamers/b_page_1.tex";
     "lec_beamers/a_page_1.tex"] =
  filter (λ p, page_number p = 1)
    ["lec_beamers/b_page_1.tex"; "lec_beamers/z_page_0.tex";
     "lec_beamers/a_page_1.tex"].
Proof.
  apply (sorted_page_key_stable
           ["lec_beamers/b_page_1.tex"; "lec_beamers/z_page_0.tex";
            "lec_beamers/a_page_1.tex"]
           ["lec_beamers/z_page_0.tex"; "lec_beamers/b_page_1.tex";
            "lec_beamers/a_page_1.tex"] 1).
  by vm_compute.
Defined.

Lemma tex_files_none (dir : string) (names : list string) :
  (∀ f, f ∈ names → endswith f ".tex" = false) → tex_files dir names = [].
Proof.
  unfold tex_files. induction names as [|f names IH]; intros Hnone; [done |].
  rewrite filter_cons. destruct (decide _) as [Htex|_].
  - rewrite (Hnone f) in Htex by left. done.
  - apply IH. intros g Hg. apply Hnone. by right.
Qed.

(** X6. An artifact directory that can be listed and holds no [.tex]
    file is not an error for the assembler: when the output file opens, it
    writes the preamble and the postamble with nothing in between,
    replacing whatever the output file held.  A directory that cannot be
    listed is an error: the exception of [os.listdir], [FileNotFoundError]
    for a directory that does not exist, leaves the assembler before any
    file is touched. *)
Theorem concat_beamer_files_no_artifacts (env : Collaborators)
    (output_dir output_file : string) (w : World) :
  (∀ names,
     os_listdir_outcome env (files w) output_dir = Ok names →
     (∀ f, f ∈ names → endswith f ".tex" = false) →
     os_open env (files w) output_file = Ok () →
     concat_beamer_files env output_dir output_file w =
       (mkWorld (<[output_file := preamble +:+ nl +:+ postamble +:+ nl]> (files w))
                (stdout w), Ok ())) ∧
  (∀ e,
     os_listdir_outcome env (files w) output_dir = Raise e →
     concat_beamer_files env output_dir output_file w = (w, Raise e)).
Proof.
  split.
  - intros names Hnames Hnone Hopen.
    rewrite (concat_beamer_files_sorted env _ _ _ names []).
    + done.
    + done.
    + by rewrite tex_files_none.
    + done.
    + intros p Hp. by apply elem_of_nil in Hp.
  - intros e. apply concat_beamer_files_unlisted.
Qed.

Lemma concat_beamer_files_no_artifacts_witness :
  concat_beamer_files
    (example_collaborators empty_document example_chat ["notes.txt"; "tex"])
    "lec_beamers" "lec_full.tex" example_artifacts =
  (mkWorld (<["lec_full.tex" := preamble +:+ nl +:+ postamble +:+ nl]>
              (files example_artifacts))
           (stdout example_artifacts), Ok ()) ∧
  concat_beamer_files
    (example_missing_dir
       (example_collaborators empty_document example_chat []) "lec_beamers")
    "lec_beamers" "lec_full.tex" (mkWorld ∅ []) =
  (mkWorld ∅ [], Raise FileNotFoundError).
Proof.
  split.
  - apply (proj1 (concat_beamer_files_no_artifacts
                    (example_collaborators empty_document example_chat
                       ["notes.txt"; "tex"])
                    "lec_beamers" "lec_full.tex" example_artifacts)
             ["notes.txt"; "tex"]).
    + reflexivity.
    + apply (proj1 (list.Forall_forall (λ f, endswith f ".tex" = false) _)).
      apply (bool_decide_unpack _). by vm_compute.
    + reflexivity.
  - apply (proj2 (concat_beamer_files_no_artifacts
                    (example_missing_dir
                       (example_collaborators empty_document example_chat [])
                       "lec_beamers")
                    "lec_beamers" "lec_full.tex" (mkWorld ∅ []))).
    reflexivity.
Defined.

(** X7. Whatever happens, the assembler prints nothing and creates,
    changes or removes no file other than its output file: the artifacts it
    reads are never touched, also when it raises half-way. *)
Theorem concat_beamer_files_confined (env : Collaborators)
    (output_dir output_file : string) (w : World) :
  stdout (concat_beamer_files env output_dir output_file w).1 = stdout w ∧
  ∀ p, p ≠ output_file →
       files (concat_beamer_files env output_dir output_file w).1 !! p =
       files w !! p.
Proof.
  destruct (framed_concat_beamer_files env output_dir output_file w)
    as [Hout Hkeep].
  split; [done |]. intros p Hp. by apply Hkeep.
Qed.

(** ** PageExtractor, again *)

(** X8. Whatever happens, the extraction prints nothing and writes only
    files whose path starts with the image directory; every other file,
    and in particular every artifact, is as it was. *)
Theorem extract_pdf_content_confined (rnd : Qc → Qc) (env : Collaborators)
    (pdf_path images_dir : string) (w : World) :
  stdout (extract_pdf_content rnd env pdf_path images_dir w).1 = stdout w ∧
  ∀ p, (∀ r, p ≠ images_dir +:+ r) →
       files (extract_pdf_content rnd env pdf_path images_dir w).1 !! p =
       files w !! p.
Proof.
  destruct (framed_extract_pdf_content rnd env pdf_path images_dir w)
    as [Hout Hkeep].
  split; [done |]. intros p Hp. apply Hkeep. intros [r ->]. by apply (Hp r).
Qed.

(** A collecting loop that returns has run its body to a value on every
    element, in order. *)
Lemma for_collect_ok {A B} (xs : list A) (body : A → M B) (w w' : World)
    (ys : list B) :
  for_collect xs body w = (w', Ok ys) →
  Forall2 (λ x y, ∃ wa wb, body x wa = (wb, Ok y)) xs ys.
Proof.
  revert w ys. induction xs as [|x xs IH]; intros w ys Hrun.
  - cbn in Hrun. injection Hrun as _ <-. constructor.
  - rewrite for_collect_cons, bind_run in Hrun.
    destruct (body x w) as [w1 [y|e]] eqn:Hx; [| done].
    rewrite bind_run in Hrun.
    destruct (for_collect xs body w1) as [w2 [ys'|e]] eqn:Hxs; [| done].
    cbn in Hrun. injection Hrun as -> <-.
    constructor; [eauto | by eapply IH].
Qed.

Lemma for_collect_total {A B} (xs : list A) (body : A → M B) :
  (∀ x, x ∈ xs → ∀ w, ∃ w' y, body x w = (w', Ok y)) →
  ∀ w, ∃ w' ys, for_collect xs body w = (w', Ok ys).
Proof.
  induction xs as [|x xs IH]; intros Hbody w; [by eexists _, _ |].
  rewrite for_collect_cons, bind_run.
  destruct (Hbody x ltac:(left) w) as (w1 & y & ->).
  rewrite bind_run.
  destruct (IH (λ z Hz, Hbody z ltac:(by right)) w1) as (w2 & ys & ->).
  by eexists _, _.
Qed.

(** A collecting loop whose body can only raise [e], and does raise on
    some element, raises [e]. *)
Lemma for_collect_raises_only {A B} (xs : list A) (body : A → M B) (e : exn)
    (x0 : A) :
  (∀ x, x ∈ xs → ∀ w e', (body x w).2 = Raise e' → e' = e) →
  x0 ∈ xs →
  (∀ w, ∃ e', (body x0 w).2 = Raise e') →
  ∀ w, ∃ w', for_collect xs body w = (w', Raise e).
Proof.
  intros Honly Hin Hx0. induction xs as [|x xs IH]; intros w.
  - by apply elem_of_nil in Hin.
  - rewrite for_collect_cons, bind_run.
    destruct (body x w) as [w1 [y|e']] eqn:Hx.
    + rewrite bind_run. apply elem_of_cons in Hin as [->|Hin].
      { destruct (Hx0 w) as [e' He']. rewrite Hx in He'. done. }
      destruct (IH (λ z Hz, Honly z ltac:(by right)) Hin w1) as [w2 ->].
      eauto.
    + rewrite (Honly x ltac:(left) w e'); [eauto | by rewrite Hx].
Qed.

Lemma for_collect_raise_inv {A B} (xs : list A) (body : A → M B) (w w' : World)
    (e : exn) :
  for_collect xs body w = (w', Raise e) →
  ∃ x wa wb, x ∈ xs ∧ body x wa = (wb, Raise e).
Proof.
  revert w. induction xs as [|x xs IH]; intros w Hrun; [done |].
  rewrite for_collect_cons, bind_run in Hrun.
  destruct (body x w) as [w1 [y|e']] eqn:Hx.
  - rewrite bind_run in Hrun.
    destruct (for_collect xs body w1) as [w2 [ys|e']] eqn:Hxs; [done |].
    injection Hrun as -> ->.
    destruct (IH _ Hxs) as (z & wa & wb & Hz & Hbody).
    exists z, wa, wb. split; [by right | done].
  - injection Hrun as -> ->. exists x, w, w'. split; [left | done].
Qed.

Section ExtractPage.
Variable rnd : Qc → Qc.
Variable env : Collaborators.
Variable doc : Document.
Variable images_dir : string.

Lemma extract_page_image_run (n k xref : nat) (image : BaseImage) (w : World) :
  extract_image doc xref = Ok image →
  (∀ r, os_open env (files w) (images_dir +:+ r) = Ok ()) →
  ∃ w', extract_page_image env doc images_dir n (k, xref) w =
          (w', Ok (os_path_join images_dir
                     ("page_" +:+ str (n + 1) +:+ "_image_" +:+ str k +:+ "." +:+
                      img_ext image))).
Proof.
  intros Himage Hopen. unfold extract_page_image.
  rewrite bind_run. unfold lift at 1. rewrite Himage.
  destruct (os_path_join_app images_dir
              ("page_" +:+ str (n + 1) +:+ "_image_" +:+ str k +:+ "." +:+
               img_ext image)) as [r Hr]; [done |].
  rewrite bind_run. unfold open_for_writing. rewrite Hr, Hopen.
  unfold mbind, M_bind, mret, M_ret, open_w, write. eauto.
Qed.

Lemma extract_page_image_inv (n k xref : nat) (path : string) (wa wb : World) :
  extract_page_image env doc images_dir n (k, xref) wa = (wb, Ok path) →
  ∃ image,
    extract_image doc xref = Ok image ∧
    path = os_path_join images_dir
             ("page_" +:+ str (n + 1) +:+ "_image_" +:+ str k +:+ "." +:+
              img_ext image).
Proof.
  unfold extract_page_image. rewrite bind_run. unfold lift at 1.
  destruct (extract_image doc xref) as [image|e] eqn:Himage; [| done].
  rewrite bind_run. unfold open_for_writing.
  destruct (os_open env (files wa) _); [| done].
  unfold mbind, M_bind, mret, M_ret, open_w, write.
  intros [= _ <-]. by exists image.
Qed.

Lemma extract_page_image_raise (n k xref : nat) (e : exn) (wa wb : World) :
  extract_page_image env doc images_dir n (k, xref) wa = (wb, Raise e) →
  extract_image doc xref = Raise e ∨
  ∃ r, os_open env (files wa) (images_dir +:+ r) = Raise e.
Proof.
  unfold extract_page_image. rewrite bind_run. unfold lift at 1.
  destruct (extract_image doc xref) as [image|e'] eqn:Himage.
  - destruct (os_path_join_app images_dir
                ("page_" +:+ str (n + 1) +:+ "_image_" +:+ str k +:+ "." +:+
                 img_ext image)) as [r Hr]; [done |].
    rewrite bind_run. unfold open_for_writing. rewrite Hr.
    destruct (os_open env (files wa) (images_dir +:+ r)) as [[]|e'] eqn:Hopen.
    + unfold mbind, M_bind, mret, M_ret, open_w, write. done.
    + intros [= _ <-]. right. by exists r.
  - intros [= _ <-]. by left.
Qed.

(** What a returned page record says about its page. *)
Lemma extract_page_inv (n : nat) (page : Page) (pd : PageData) (wa wb : World) :
  extract_page rnd env doc images_dir (n, page) wa = (wb, Ok pd) →
  page_num pd = n ∧
  dimensions pd = (rect_width page, rect_height page) ∧
  Forall2 (λ block te,
             normalize_block rnd block (rect_width page) (rect_height page) = Ok te)
    (text_blocks page) (pd_text pd) ∧
  Forall2 (λ entry path,
             ∃ image,
               extract_image doc entry.2 = Ok image ∧
               path = os_path_join images_dir
                        ("page_" +:+ str (n + 1) +:+ "_image_" +:+ str entry.1 +:+
                         "." +:+ img_ext image))
    (enumerate (images page)) (pd_images pd).
Proof.
  unfold extract_page. rewrite bind_run.
  destruct (for_collect (enumerate (images page)) _ wa) as [w1 [paths|e]] eqn:Himg;
    [| done].
  rewrite bind_run.
  destruct (for_collect (text_blocks page) _ w1) as [w2 [tes|e]] eqn:Htxt; [| done].
  intros [= _ <-]. cbn. split; [done |]. split; [done |].
  apply for_collect_ok in Himg, Htxt. split.
  - revert Htxt. apply Forall2_impl. by intros block te (? & ? & [= _ ->]).
  - revert Himg. apply Forall2_impl. intros [k xref] path (? & ? & Hrun).
    by apply extract_page_image_inv in Hrun.
Qed.

Hypothesis images_dir_writable :
  ∀ fs r, os_open env fs (images_dir +:+ r) = Ok ().

Lemma extract_page_total (n : nat) (page : Page) (w : World) :
  (∀ xref, xref ∈ images page → ∃ image, extract_image doc xref = Ok image) →
  (text_blocks page ≠ [] → rect_width page ≠ 0%Qc ∧ rect_height page ≠ 0%Qc) →
  ∃ w' pd, extract_page rnd env doc images_dir (n, page) w = (w', Ok pd).
Proof.
  intros Hdecode Hdims. unfold extract_page. rewrite bind_run.
  destruct (for_collect_total (enumerate (images page))
              (extract_page_image env doc images_dir n)) with (w := w)
    as (w1 & paths & ->).
  { intros [k xref] Hin%elem_of_enumerate%list_elem_of_lookup_2 w0.
    destruct (Hdecode xref) as [image Himage]; [done |].
    destruct (extract_page_image_run n k xref image w0 Himage) as [w' ->];
      [intros r; apply images_dir_writable | eauto]. }
  rewrite bind_run.
  destruct (for_collect_total (text_blocks page)
              (λ block, lift (normalize_block rnd block (rect_width page)
                                (rect_height page)))) with (w := w1)
    as (w2 & tes & ->); [| by eexists _, _].
  intros block Hblock w0. destruct Hdims as [Hw Hh].
  { intros Hnil. rewrite Hnil in Hblock. by apply elem_of_nil in Hblock. }
  unfold lift. rewrite normalize_block_ok by done. eauto.
Qed.

Lemma extract_page_raise (n : nat) (page : Page) (w : World) (e : exn) :
  (∀ xref, xref ∈ images page → ∃ image, extract_image doc xref = Ok image) →
  (extract_page rnd env doc images_dir (n, page) w).2 = Raise e →
  e = ZeroDivisionError.
Proof.
  intros Hdecode. unfold extract_page. rewrite bind_run.
  destruct (for_collect (enumerate (images page)) _ w) as [w1 [paths|e']] eqn:Himg.
  - rewrite bind_run.
    destruct (for_collect (text_blocks page) _ w1) as [w2 [tes|e']] eqn:Htxt;
      [done |].
    intros [= <-].
    apply for_collect_raise_inv in Htxt as (block & wa & wb & _ & [= _ Hblock]).
    by apply normalize_block_raise in Hblock as [-> _].
  - apply for_collect_raise_inv in Himg as ([k xref] & wa & wb & Hin & Hrun).
    apply extract_page_image_raise in Hrun as [Hrun | [r Hr]].
    + apply elem_of_enumerate, list_elem_of_lookup_2 in Hin.
      destruct (Hdecode xref Hin) as [image Himage]. congruence.
    + by rewrite images_dir_writable in Hr.
Qed.

Lemma extract_page_zero (n : nat) (page : Page) (w : World) :
  (∀ xref, xref ∈ images page → ∃ image, extract_image doc xref = Ok image) →
  text_blocks page ≠ [] →
  rect_width page = 0%Qc ∨ rect_height page = 0%Qc →
  ∃ e, (extract_page rnd env doc images_dir (n, page) w).2 = Raise e.
Proof.
  intros Hdecode Hblocks Hzero.
  destruct (extract_page rnd env doc images_dir (n, page) w) as [w' [pd|e]] eqn:Hrun;
    [| by exists e].
  apply extract_page_inv in Hrun as (_ & _ & Htxt & _).
  destruct (text_blocks page) as [|block blocks]; [done |].
  apply Forall2_cons_inv_l in Htxt as (te & tes & Hte & _ & _).
  by rewrite normalize_block_zero in Hte.
Qed.

End ExtractPage.

Lemma length_enumerate {A} (xs : list A) : length (enumerate xs) = length xs.
Proof. apply length_imap. Qed.

Lemma lookup_enumerate {A} (xs : list A) (i : nat) (x : A) :
  xs !! i = Some x → enumerate xs !! i = Some (i, x).
Proof. intros Hx. unfold enumerate. by rewrite list_lookup_imap, Hx. Qed.

(** X9. What the extraction returns when it returns: one record per page
    of the document, in page order; the record of page [i] carries the
    0-based index [i], the page's width and height, one normalised text
    element per text block in block order, and one path per embedded image
    in image order, each named
    [page_<i+1>_image_<k>.<ext>] in the image directory with the
    extension the image itself reports. *)
Theorem extract_pdf_content_records (rnd : Qc → Qc) (env : Collaborators)
    (pdf_path images_dir : string) (w w' : World) (content : list PageData) :
  extract_pdf_content rnd env pdf_path images_dir w = (w', Ok content) →
  ∃ doc,
    fitz_open env pdf_path = Ok doc ∧
    length content = length (pages doc) ∧
    ∀ i page, pages doc !! i = Some page →
      ∃ pd,
        content !! i = Some pd ∧
        page_num pd = i ∧
        dimensions pd = (rect_width page, rect_height page) ∧
        Forall2 (λ block te,
                   normalize_block rnd block (rect_width page) (rect_height page)
                     = Ok te)
          (text_blocks page) (pd_text pd) ∧
        Forall2 (λ entry path,
                   ∃ image,
                     extract_image doc entry.2 = Ok image ∧
                     path = os_path_join images_dir
                              ("page_" +:+ str (i + 1) +:+ "_image_" +:+
                               str entry.1 +:+ "." +:+ img_ext image))
          (enumerate (images page)) (pd_images pd).
Proof.
  unfold extract_pdf_content. rewrite bind_run. unfold lift at 1.
  destruct (fitz_open env pdf_path) as [doc|e]; [| done].
  intros Hrun%for_collect_ok. exists doc. split; [done |]. split.
  - apply Forall2_length in Hrun. by rewrite length_enumerate in Hrun.
  - intros i page Hpage%lookup_enumerate.
    destruct (Forall2_lookup_l _ _ _ _ _ Hrun Hpage) as (pd & Hpd & wa & wb & Hx).
    exists pd. split; [done |]. by eapply extract_page_inv.
Qed.

Lemma extract_pdf_content_records_witness :
  ∃ doc,
    fitz_open example_env example_pdf_path = Ok doc ∧
    length example_content = length (pages doc) ∧
    ∀ i page, pages doc !! i = Some page →
      ∃ pd,
        example_content !! i = Some pd ∧
        page_num pd = i ∧
        dimensions pd = (rect_width page, rect_height page) ∧
        Forall2 (λ block te,
                   normalize_block id block (rect_width page) (rect_height page)
                     = Ok te)
          (text_blocks page) (pd_text pd) ∧
        Forall2 (λ entry path,
                   ∃ image,
                     extract_image doc entry.2 = Ok image ∧
                     path = os_path_join "lec_images"
                              ("page_" +:+ str (i + 1) +:+ "_image_" +:+
                               str entry.1 +:+ "." +:+ img_ext image))
          (enumerate (images page)) (pd_images pd).
Proof.
  apply (extract_pdf_content_records id example_env example_pdf_path "lec_images"
           example_resume
           (extract_pdf_content id example_env example_pdf_path "lec_images"
              example_resume).1).
  by vm_compute.
Defined.

(** X10. When the document opens, all its embedded images decode and
    every file below the image directory opens for writing, the extraction
    depends on the page sizes only.  It returns if every page that has a
    text block has a non-zero width and a non-zero height; a page without
    size and without text is no obstacle.  It raises [ZeroDivisionError]
    for the whole document as soon as one page has a text block and a zero
    width or height. *)
Theorem extract_pdf_content_outcome (rnd : Qc → Qc) (env : Collaborators)
    (pdf_path images_dir : string) (w : World) (doc : Document) :
  fitz_open env pdf_path = Ok doc →
  (∀ page xref, page ∈ pages doc → xref ∈ images page →
                ∃ image, extract_image doc xref = Ok image) →
  (∀ fs r, os_open env fs (images_dir +:+ r) = Ok ()) →
  ((∀ page, page ∈ pages doc → text_blocks page ≠ [] →
            rect_width page ≠ 0%Qc ∧ rect_height page ≠ 0%Qc) →
   ∃ w' content,
     extract_pdf_content rnd env pdf_path images_dir w = (w', Ok content)) ∧
  (∀ page, page ∈ pages doc → text_blocks page ≠ [] →
           rect_width page = 0%Qc ∨ rect_height page = 0%Qc →
   ∃ w',
     extract_pdf_content rnd env pdf_path images_dir w =
       (w', Raise ZeroDivisionError)).
Proof.
  intros Hopen Hdecode Hwrite. unfold extract_pdf_content.
  rewrite bind_run. unfold lift at 1. rewrite Hopen. split.
  - intros Hdims. apply for_collect_total.
    intros [n page] Hin%elem_of_enumerate%list_elem_of_lookup_2 w0.
    apply extract_page_total;
      [done | intros xref Hxref; by apply (Hdecode page) | by apply Hdims].
  - intros page Hpage Hblocks Hzero.
    apply list_elem_of_lookup in Hpage as [n Hn].
    apply (for_collect_raises_only _ _ _ (n, page)).
    + intros [k page'] Hin%elem_of_enumerate%list_elem_of_lookup_2 w0 e.
      apply extract_page_raise; [done |].
      intros xref Hxref. by apply (Hdecode page').
    + by apply elem_of_enumerate.
    + intros w0. apply extract_page_zero; [| done | done].
      intros xref Hxref. apply (Hdecode page); [| done].
      by eapply list_elem_of_lookup_2.
Qed.

Lemma extract_pdf_content_outcome_witness :
  (∃ w' content,
     extract_pdf_content id
       (example_collaborators example_blank_page example_chat [])
       "lec.pdf" "lec_images" (mkWorld ∅ []) = (w', Ok content)) ∧
  (∃ w',
     extract_pdf_content id
       (example_collaborators example_zero_width example_chat [])
       "lec.pdf" "lec_images" (mkWorld ∅ []) = (w', Raise ZeroDivisionError)).
Proof.
  split.
  - apply (extract_pdf_content_outcome id
             (example_collaborators example_blank_page example_chat [])
             "lec.pdf" "lec_images" (mkWorld ∅ []) example_blank_page).
    + reflexivity.
    + intros page xref Hpage Hxref. exfalso.
      repeat (apply elem_of_cons in Hpage as [->|Hpage];
              [by apply elem_of_nil in Hxref |]).
      by apply elem_of_nil in Hpage.
    + reflexivity.
    + intros page Hpage Hblocks.
      apply elem_of_cons in Hpage as [->|Hpage]; [done |].
      apply elem_of_cons in Hpage as [->|Hpage]; [done |].
      by apply elem_of_nil in Hpage.
  - apply (extract_pdf_content_outcome id
             (example_collaborators example_zero_width example_chat [])
             "lec.pdf" "lec_images" (mkWorld ∅ []) example_zero_width
             eq_refl)
      with (page := mkPage [mkBlock 1 (Q2Qc 2) (Q2Qc 3) (Q2Qc 4) "title"] []
                      0%Qc (Q2Qc 20)).
    + intros page xref Hpage Hxref. exfalso.
      repeat (apply elem_of_cons in Hpage as [->|Hpage];
              [by apply elem_of_nil in Hxref |]).
      by apply elem_of_nil in Hpage.
    + reflexivity.
    + apply list_elem_of_further, list_elem_of_here.
    + done.
    + by left.
Defined.

(** ** The run of [main], again *)

Section Run.
Variable env : Collaborators.
Variables pdf_path name : string.

Lemma main_loop_skip (entries : list (nat * PageData)) (w : World) :
  (∀ i pd, (i, pd) ∈ entries → i ≤ 27) →
  for_each entries (main_body env pdf_path name) w = (w, Ok ()).
Proof.
  induction entries as [|[i pd] entries IH]; intros Hskip; [done |].
  rewrite for_each_cons, bind_run, main_body_skip by (eapply Hskip; left).
  apply IH. intros j pdj Hj. eapply Hskip. by right.
Qed.

Lemma sort_by_key_seq {A} (f : nat → A) (a m : nat) :
  sort_by_key ((λ i, (i, f i)) <$> seq a m) = (λ i, (i, f i)) <$> seq a m.
Proof.
  revert a. induction m as [|m IH]; intros a; [done |].
  cbn [seq]. rewrite fmap_cons, sort_by_key_cons, IH.
  destruct m as [|m]; [done |]. cbn [seq]. rewrite fmap_cons.
  cbn [insert_by_key fst]. by destruct (Nat.leb_spec a (S a)); [| lia].
Qed.

(** The artifacts of the pages [a .. a+m-1], listed in any order, sort
    into page order. *)
Lemma sorted_artifact_paths (paths : list string) (a m : nat) :
  has_chr "." name = false →
  paths ≡ₚ artifact_path name <$> seq a m →
  sorted page_key paths = Ok (artifact_path name <$> seq a m).
Proof.
  intros Hname Hperm.
  assert (∀ i, page_number (artifact_path name i) = i) as Hnum.
  { intros i. unfold page_number. by rewrite page_key_artifact. }
  assert (∀ p, p ∈ artifact_path name <$> seq a m → is_Some (re_search_page p))
    as Hmatch.
  { intros p (i & -> & _)%list_elem_of_fmap.
    destruct (page_key_cases (artifact_path name i)) as [[_ Hr]|[? _]]; [| done].
    by rewrite page_key_artifact in Hr. }
  rewrite (sorted_page_key_perm (artifact_path name <$> seq a m)); [| done | | done].
  - unfold sorted. rewrite decorate_ok by done.
    rewrite <- list_fmap_compose.
    rewrite (list_fmap_ext _ (λ i, (i, artifact_path name i)) (seq a m))
      by (intros ? i _; cbn; by rewrite Hnum).
    rewrite sort_by_key_seq, <- list_fmap_compose. done.
  - rewrite <- list_fmap_compose.
    rewrite (list_fmap_ext _ id (seq a m)) by (intros ? i _; apply Hnum).
    rewrite list_fmap_id. apply NoDup_seq.
Qed.

End Run.

(** X11. A complete run of [main].  When the extraction returns, every
    page from index 28 on is rendered and generated, and at assembly time
    the artifact directory lists exactly the artifacts of this run among
    its [.tex] files (in any order) and the final document opens, [main]
    returns normally; it prints the two progress lines of each processed
    page, in page order, and then the closing line; each processed page's
    artifact holds its cleaned frame; and the final document is the
    preamble, the texts of the artifacts of the pages 28, 29, ... in
    ascending page order, each as read in text mode (a CR or CRLF in a
    frame arrives as LF) and followed by a newline, and the postamble. *)
Theorem main_assembles_in_page_order (rnd : Qc → Qc) (env : Collaborators)
    (pdf_path : string) (w w1 : World) (content : list PageData)
    (names : list string) :
  let name := file_name_of pdf_path in
  let made := artifact_path name <$> seq 28 (length content - 28) in
  let at_assembly :=
    files (for_each (enumerate content) (main_body env pdf_path name) w1).1 in
  extract_pdf_content rnd env pdf_path (name +:+ "_images") w = (w1, Ok content) →
  (∀ i pd, content !! i = Some pd → 27 < i →
           ∃ frame, generates env pdf_path pd (Ok frame)) →
  os_listdir_outcome env at_assembly (name +:+ "_beamers") = Ok names →
  tex_files (name +:+ "_beamers") names ≡ₚ made →
  os_open env at_assembly (name +:+ "_full.tex") = Ok () →
  ∃ w',
    main rnd env pdf_path w = (w', Ok ()) ∧
    stdout w' =
      (stdout w ++ loop_log name (enumerate content) ++
       ["Concatenated LaTeX Beamer file created: " +:+ name +:+ "_full.tex"])%list ∧
    (∀ i pd frame, content !! i = Some pd → 27 < i →
          generates env pdf_path pd (Ok frame) →
          files w' !! artifact_path name i = Some (clean_frame frame +:+ nl)) ∧
    files w' !! (name +:+ "_full.tex") =
      Some (preamble +:+ nl +:+
            foldr (λ p acc,
                     universal_newlines (default "" (files w' !! p)) +:+ nl +:+ acc)
              "" made +:+
            postamble +:+ nl).
Proof.
  intros name made at_assembly Hextract Hgen Hnames Hlist Hopen.
  pose proof (framed_extract_pdf_content rnd env pdf_path (name +:+ "_images") w)
    as [Hout1 _].
  rewrite Hextract in Hout1. cbn [fst] in Hout1.
  destruct (main_loop_ok env pdf_path name (enumerate content) w1)
    as (w2 & Hloop & Hout2 & _ & _ & Hnew).
  { apply enumerate_indices. }
  { intros i pd Hin%elem_of_enumerate. by apply Hgen. }
  subst at_assembly. rewrite Hloop in Hnames, Hopen. cbn [fst] in Hnames, Hopen.
  assert (∀ p, p ∈ made →
            p ≠ name +:+ "_full.tex" ∧ is_Some (files w2 !! p)) as Hmade.
  { intros p (i & -> & Hi%elem_of_seq)%list_elem_of_fmap. split.
    - intros Heq. by apply eq_sym, full_not_artifact in Heq.
    - destruct (lookup_lt_is_Some_2 content i) as [pd Hpd]; [lia |].
      destruct (Hgen i pd Hpd) as [frame Hframe]; [lia |].
      rewrite (Hnew i pd frame); [done | by apply elem_of_enumerate | lia | done]. }
  assert (sorted page_key (tex_files (name +:+ "_beamers") names) = Ok made)
    as Hsorted.
  { apply sorted_artifact_paths; [apply split_first_no_sep | done]. }
  unfold main. fold name.
  rewrite bind_run, Hextract, bind_run, Hloop, bind_run.
  rewrite (concat_beamer_files_sorted _ _ _ _ names made) by done.
  eexists. split; [reflexivity |]. cbn [files stdout].
  split; [by rewrite Hout2, Hout1, <- (assoc_L (++)) |]. split.
  - intros i pd frame Hpd Hi Hframe.
    rewrite lookup_insert_ne by apply full_not_artifact.
    eapply Hnew; [by apply elem_of_enumerate | done | done].
  - rewrite lookup_insert_eq. do 2 f_equal.
    change (foldr _ "" made) with
      (artifact_bodies
         (<[name +:+ "_full.tex" :=
              preamble +:+ nl +:+ artifact_bodies (files w2) made +:+
              postamble +:+ nl]> (files w2)) made).
    rewrite (artifact_bodies_ext (files w2) (<[_ := _]> (files w2))); [done |].
    intros p Hp. apply lookup_insert_ne. intros Heq.
    by destruct (Hmade p Hp).
Qed.

Lemma main_assembles_in_page_order_witness :
  ∃ w',
    main id example_env_fresh example_pdf_path (mkWorld ∅ []) = (w', Ok ()) ∧
    stdout w' =
      (stdout (mkWorld ∅ []) ++
       loop_log (file_name_of example_pdf_path) (enumerate example_content) ++
       ["Concatenated LaTeX Beamer file created: " +:+
        file_name_of example_pdf_path +:+ "_full.tex"])%list ∧
    (∀ i pd frame, example_content !! i = Some pd → 27 < i →
          generates example_env_fresh example_pdf_path pd (Ok frame) →
          files w' !! artifact_path (file_name_of example_pdf_path) i =
          Some (clean_frame frame +:+ nl)) ∧
    files w' !! (file_name_of example_pdf_path +:+ "_full.tex") =
      Some (preamble +:+ nl +:+
            foldr (λ p acc,
                     universal_newlines (default "" (files w' !! p)) +:+ nl +:+ acc)
              ""
              (artifact_path (file_name_of example_pdf_path) <$>
               seq 28 (length example_content - 28)) +:+
            postamble +:+ nl).
Proof.
  apply (main_assembles_in_page_order id example_env_fresh example_pdf_path
           (mkWorld ∅ []) (mkWorld ∅ []) example_content
           ["lec_page_29.tex"; "notes.txt"; "lec_page_28.tex"]).
  - by vm_compute.
  - intros i pd _ _. by apply example_chat_generates.
  - reflexivity.
  - vm_compute. apply perm_swap.
  - reflexivity.
Defined.

(** X12. A document of at most 28 pages.  When the extraction returns at
    most 28 pages, the loop of [main] skips them all: no page is rendered,
    the generator is never asked, no progress line is printed, and apart
    from the extracted images the only file the run can change is the final
    document; the run ends as the assembly ends, and prints the closing
    line exactly when the assembly returns. *)
Theorem main_short_document (rnd : Qc → Qc) (env : Collaborators)
    (pdf_path : string) (w w1 : World) (content : list PageData) :
  let name := file_name_of pdf_path in
  extract_pdf_content rnd env pdf_path (name +:+ "_images") w = (w1, Ok content) →
  length content ≤ 28 →
  ∃ w' r,
    main rnd env pdf_path w = (w', r) ∧
    r = (concat_beamer_files env (name +:+ "_beamers") (name +:+ "_full.tex") w1).2 ∧
    stdout w' =
      (stdout w ++
       match r with
       | Ok _ => ["Concatenated LaTeX Beamer file created: " +:+ name +:+ "_full.tex"]
       | Raise _ => []
       end)%list ∧
    (∀ p, p ≠ name +:+ "_full.tex" → files w' !! p = files w1 !! p).
Proof.
  intros name Hextract Hlen.
  pose proof (framed_extract_pdf_content rnd env pdf_path (name +:+ "_images") w)
    as [Hout1 _].
  rewrite Hextract in Hout1. cbn [fst] in Hout1.
  pose proof (framed_concat_beamer_files env (name +:+ "_beamers")
                (name +:+ "_full.tex") w1) as [Hout3 Hkeep3].
  unfold main. fold name.
  rewrite bind_run, Hextract, bind_run, main_loop_skip, bind_run.
  - destruct (concat_beamer_files env (name +:+ "_beamers") (name +:+ "_full.tex") w1)
      as [w3 [[]|e]]; cbn [fst snd] in *.
    + eexists _, _. split; [reflexivity |]. split; [done |].
      cbn [files stdout]. by rewrite Hout3, Hout1.
    + exists w3, (Raise e). split; [done |]. split; [done |].
      by rewrite Hout3, Hout1, (right_id_L [] (++)).
  - intros i pd Hin%elem_of_enumerate%lookup_lt_Some. lia.
Qed.

Lemma main_short_document_witness :
  ∃ w' r,
    main id example_env_short example_pdf_path (mkWorld ∅ []) = (w', r) ∧
    r = (concat_beamer_files example_env_short
           (file_name_of example_pdf_path +:+ "_beamers")
           (file_name_of example_pdf_path +:+ "_full.tex") (mkWorld ∅ [])).2 ∧
    stdout w' =
      (stdout (mkWorld ∅ []) ++
       match r with
       | Ok _ => ["Concatenated LaTeX Beamer file created: " +:+
                  file_name_of example_pdf_path +:+ "_full.tex"]
       | Raise _ => []
       end)%list ∧
    (∀ p, p ≠ file_name_of example_pdf_path +:+ "_full.tex" →
          files w' !! p = files (mkWorld ∅ []) !! p).
Proof.
  apply (main_short_document id example_env_short example_pdf_path
           (mkWorld ∅ []) (mkWorld ∅ [])
           (take 3 example_content)).
  - by vm_compute.
  - rewrite length_take. lia.
Defined.

(** ** The numbered images of [pdf-to-image.py] *)

Lemma image_name_dec (page_count i : nat) :
  i < page_count →
  image_name page_count i = dec (String.length (str page_count)) (i + 1) +:+ ".png".
Proof.
  intros Hi. pose proof (str_upper page_count). pose proof (str_length_pos page_count).
  unfold image_name. rewrite zfill_str; [done | done | lia].
Qed.

Lemma dec_no_slash (w m : nat) (t : string) :
  1 ≤ w → String.prefix "/" (dec w m +:+ t) = false.
Proof.
  revert m t. induction w as [|w IH]; intros m t Hw; [lia |].
  rewrite dec_S, str_app_assoc. destruct w as [|w]; [| apply IH; lia].
  change (dec 0 (m / 10)) with "". rewrite str_app_nil_l, str_app_cons.
  apply prefix_cons_ne.
  pose proof (Nat.mod_upper_bound m 10 ltac:(lia)) as Hd.
  generalize dependent (m mod 10). intros d Hd.
  do 10 (destruct d as [|d]; [done |]). lia.
Qed.

Lemma os_path_join_inj (a b b' : string) :
  String.prefix "/" b = false → String.prefix "/" b' = false →
  os_path_join a b = os_path_join a b' → b = b'.
Proof.
  intros Hb Hb'. unfold os_path_join. rewrite Hb, Hb'.
  destruct (_ || _); intros Heq.
  - by apply String.app_inj in Heq.
  - by do 2 apply String.app_inj in Heq.
Qed.

Lemma image_name_distinct (page_count i j : nat) :
  i < j → j < page_count → image_name page_count i ≠ image_name page_count j.
Proof.
  intros Hij Hj Heq. pose proof (str_upper page_count).
  rewrite !image_name_dec in Heq by lia.
  apply str_app_inv_tail in Heq.
  pose proof (dec_lt (String.length (str page_count)) (i + 1) (j + 1)) as Hlt.
  rewrite Heq, compare_refl in Hlt. by discriminate Hlt; lia.
Qed.

Lemma image_path_inj (output_dir : string) (page_count i j : nat) :
  i < page_count → j < page_count →
  os_path_join output_dir (image_name page_count i) =
    os_path_join output_dir (image_name page_count j) →
  i = j.
Proof.
  intros Hi Hj Heq. pose proof (str_length_pos page_count).
  apply os_path_join_inj in Heq;
    [| rewrite image_name_dec by done; by apply dec_no_slash ..].
  destruct (Nat.lt_trichotomy i j) as [Hlt|[-> |Hlt]]; [| done |].
  - by apply image_name_distinct in Heq.
  - by apply eq_sym, image_name_distinct in Heq.
Qed.

Section Images.
Variable env : Collaborators.
Variable doc : Document.
Variable output_dir : string.
Variable dpi : nat.
Variable page_count : nat.

Lemma save_page_image_run (i : nat) (pix : string) (w : World) :
  get_pixmap env doc i dpi = Ok pix →
  save_page_image env doc output_dir dpi page_count i w =
    (mkWorld (<[os_path_join output_dir (image_name page_count i) := pix]> (files w))
             (stdout w), Ok ()).
Proof.
  intros Hpix. unfold save_page_image.
  rewrite bind_run. unfold lift at 1. rewrite Hpix.
  unfold mbind, M_bind, open_w, write. cbn [files stdout].
  by rewrite lookup_insert_eq, insert_insert_eq, str_app_nil_l.
Qed.

Lemma save_page_image_raise (i : nat) (e : exn) (w : World) :
  get_pixmap env doc i dpi = Raise e →
  save_page_image env doc output_dir dpi page_count i w = (w, Raise e).
Proof.
  intros Hpix. unfold save_page_image.
  rewrite bind_run. unfold lift at 1. by rewrite Hpix.
Qed.

(** The loop over pages that all render: each page is saved under its own
    name, nothing else changes and nothing is printed. *)
Lemma save_loop_ok (indices : list nat) (w : World) :
  NoDup indices →
  (∀ i, i ∈ indices → i < page_count) →
  (∀ i, i ∈ indices → ∃ pix, get_pixmap env doc i dpi = Ok pix) →
  ∃ w',
    for_each indices (save_page_image env doc output_dir dpi page_count) w
      = (w', Ok ()) ∧
    stdout w' = stdout w ∧
    (∀ i pix, i ∈ indices → get_pixmap env doc i dpi = Ok pix →
       files w' !! os_path_join output_dir (image_name page_count i) = Some pix) ∧
    (∀ p, (∀ i, i ∈ indices → p ≠ os_path_join output_dir (image_name page_count i)) →
       files w' !! p = files w !! p).
Proof.
  revert w. induction indices as [|i0 indices IH]; intros w Hnd Hlt Hpix.
  { exists w. split; [done |]. split; [done |]. split; [| done].
    intros i pix Hin. by apply elem_of_nil in Hin. }
  pose proof (NoDup_cons_1_1 _ _ Hnd) as Hfresh.
  pose proof (NoDup_cons_1_2 _ _ Hnd) as Hnd'.
  destruct (Hpix i0) as [pix0 Hpix0]; [left |].
  rewrite for_each_cons, bind_run, (save_page_image_run i0 pix0) by done.
  set (w1 := mkWorld _ _).
  destruct (IH w1 Hnd') as (w' & Hrun & Hout & Hnew & Hkeep).
  { intros i Hi. apply Hlt. by right. }
  { intros i Hi. apply Hpix. by right. }
  exists w'. split; [done |]. split; [done |]. split.
  - intros i pix Hin Hi. apply elem_of_cons in Hin as [-> |Hin]; [| by apply Hnew].
    rewrite Hkeep.
    + subst w1. cbn [files]. rewrite lookup_insert_eq. congruence.
    + intros j Hj Heq. apply image_path_inj in Heq; [by subst | |].
      * apply Hlt. left.
      * apply Hlt. by right.
  - intros p Hp. rewrite Hkeep by (intros i Hi; apply Hp; by right).
    subst w1. cbn [files]. apply lookup_insert_ne, not_eq_sym, Hp. left.
Qed.

End Images.

(** X13. In [convert_pdf_to_numbered_images] no two pages of a document
    share an output file: for page indices below the page count, equal
    output paths mean equal pages, so no image overwrites another. *)
Theorem image_path_distinct_pages (output_dir : string) (page_count i j : nat) :
  i < page_count → j < page_count → i ≠ j →
  os_path_join output_dir (image_name page_count i) ≠
  os_path_join output_dir (image_name page_count j).
Proof. intros Hi Hj Hne Heq. by apply Hne, (image_path_inj output_dir page_count). Qed.

Lemma image_path_distinct_pages_witness :
  os_path_join "lec_images" (image_name 120 8) ≠
  os_path_join "lec_images" (image_name 120 98).
Proof. apply (image_path_distinct_pages "lec_images" 120 8 98); lia. Defined.

(** X14. A successful conversion.  When the PDF opens with at least one
    page and every page renders, [convert_pdf_to_numbered_images] returns
    normally; it prints the line announcing the page count and the closing
    line; the image of every page is in the file named by its zero-padded
    1-based number, and no other file changes. *)
Theorem convert_pdf_to_numbered_images_saves (env : Collaborators)
    (pdf_path output_dir : string) (dpi : nat) (doc : Document) (w : World) :
  let n := length (pages doc) in
  fitz_open env pdf_path = Ok doc →
  0 < n →
  (∀ i, i < n → ∃ pix, get_pixmap env doc i dpi = Ok pix) →
  ∃ w',
    convert_pdf_to_numbered_images env pdf_path output_dir dpi w = (w', Ok ()) ∧
    stdout w' =
      (stdout w ++
       ["📄 Converting " +:+ str n +:+ " pages...";
        nl +:+ "🎉 Conversion complete! All " +:+ str n +:+ " pages saved."])%list ∧
    (∀ i pix, i < n → get_pixmap env doc i dpi = Ok pix →
       files w' !! os_path_join output_dir (image_name n i) = Some pix) ∧
    (∀ p, (∀ i, i < n → p ≠ os_path_join output_dir (image_name n i)) →
       files w' !! p = files w !! p).
Proof.
  intros n Hopen Hn Hpix.
  destruct (save_loop_ok env doc output_dir dpi n (seq 0 n)
              (mkWorld (files w)
                 (stdout w ++ ["📄 Converting " +:+ str n +:+ " pages..."])))
    as (w2 & Hloop & Hout & Hnew & Hkeep).
  { apply NoDup_seq. }
  { intros i Hi%elem_of_seq. lia. }
  { intros i Hi%elem_of_seq. apply Hpix. lia. }
  unfold convert_pdf_to_numbered_images, convert_pages.
  rewrite bind_run. unfold lift at 1. rewrite Hopen. fold n.
  destruct (Nat.eqb_spec n 0) as [|_]; [lia |].
  rewrite bind_run. unfold print at 1. rewrite bind_run, Hloop.
  unfold print. eexists. split; [reflexivity |]. cbn [files stdout] in *.
  split; [by rewrite Hout, <- (assoc_L (++)) |]. split.
  - intros i pix Hi. apply Hnew, elem_of_seq. lia.
  - intros p Hp. apply Hkeep. intros i Hi%elem_of_seq. apply Hp. lia.
Qed.

Lemma convert_pdf_to_numbered_images_saves_witness :
  ∃ w',
    convert_pdf_to_numbered_images example_env "lec.pdf" "lec_images" 400
      (mkWorld ∅ []) = (w', Ok ()) ∧
    stdout w' =
      (stdout (mkWorld ∅ []) ++
       ["📄 Converting " +:+ str (length (pages (example_document 30))) +:+ " pages...";
        nl +:+ "🎉 Conversion complete! All " +:+
        str (length (pages (example_document 30))) +:+ " pages saved."])%list ∧
    (∀ i pix, i < length (pages (example_document 30)) →
       get_pixmap example_env (example_document 30) i 400 = Ok pix →
       files w' !! os_path_join "lec_images"
                     (image_name (length (pages (example_document 30))) i) = Some pix) ∧
    (∀ p, (∀ i, i < length (pages (example_document 30)) →
             p ≠ os_path_join "lec_images"
                   (image_name (length (pages (example_document 30))) i)) →
       files w' !! p = files (mkWorld ∅ []) !! p).
Proof.
  apply (convert_pdf_to_numbered_images_saves example_env "lec.pdf" "lec_images" 400
           (example_document 30) (mkWorld ∅ [])).
  - reflexivity.
  - cbn. lia.
  - intros i _. by exists "PNG".
Defined.

(** The processing of steps 3 and 4 on a document whose page [k] is the
    first that does not render. *)
Lemma process_page_failure (env : Collaborators)
    (pdf_path output_dir : string) (dpi : nat) (doc : Document) (w : World)
    (k : nat) (e : exn) :
  let n := length (pages doc) in
  fitz_open env pdf_path = Ok doc →
  k < n →
  (∀ i, i < k → ∃ pix, get_pixmap env doc i dpi = Ok pix) →
  get_pixmap env doc k dpi = Raise e →
  (∀ c, e ≠ SystemExit c) →
  ∃ w',
    convert_pdf_to_numbered_images env pdf_path output_dir dpi w
      = (w', Raise (SystemExit 1)) ∧
    stdout w' =
      (stdout w ++
       ["📄 Converting " +:+ str n +:+ " pages...";
        "❗️ An error occurred while processing the PDF: " +:+ exn_message e])%list ∧
    (∀ i pix, i < k → get_pixmap env doc i dpi = Ok pix →
       files w' !! os_path_join output_dir (image_name n i) = Some pix) ∧
    (∀ p, (∀ i, i < k → p ≠ os_path_join output_dir (image_name n i)) →
       files w' !! p = files w !! p).
Proof.
  intros n Hopen Hk Hpix Hfail Hexn.
  destruct (save_loop_ok env doc output_dir dpi n (seq 0 k)
              (mkWorld (files w)
                 (stdout w ++ ["📄 Converting " +:+ str n +:+ " pages..."])))
    as (w2 & Hloop & Hout & Hnew & Hkeep).
  { apply NoDup_seq. }
  { intros i Hi%elem_of_seq. lia. }
  { intros i Hi%elem_of_seq. apply Hpix. lia. }
  assert (seq 0 n = seq 0 k ++ k :: seq (S k) (n - S k))%list as Hseq.
  { replace n with (k + S (n - S k)) at 1 by lia. by rewrite seq_app. }
  unfold convert_pdf_to_numbered_images, convert_pages.
  rewrite bind_run. unfold lift at 1. rewrite Hopen. fold n.
  destruct (Nat.eqb_spec n 0) as [|_]; [lia |].
  rewrite bind_run. unfold print at 1. rewrite bind_run, Hseq.
  rewrite (for_each_app_raise _ _ _ _ _ w2 w2 e Hloop)
    by (by apply save_page_image_raise).
  destruct e; try (by destruct (Hexn code));
    (eexists; split; [reflexivity |]; cbn [files stdout] in *;
     split; [by rewrite Hout, <- (assoc_L (++)) |]; split;
     [ intros i pix Hi; apply Hnew, elem_of_seq; lia
     | intros p Hp; apply Hkeep; intros i Hi%elem_of_seq; apply Hp; lia ]).
Qed.

Lemma process_empty (env : Collaborators)
    (pdf_path output_dir : string) (dpi : nat) (doc : Document) (w : World) :
  fitz_open env pdf_path = Ok doc →
  pages doc = [] →
  convert_pdf_to_numbered_images env pdf_path output_dir dpi w =
    (mkWorld (files w) (stdout w ++ ["⚠️ The PDF appears to be empty."]), Ok ()).
Proof.
  intros Hopen Hpages.
  unfold convert_pdf_to_numbered_images, convert_pages.
  rewrite bind_run. unfold lift at 1. by rewrite Hopen, Hpages.
Qed.

Lemma process_unopenable (env : Collaborators)
    (pdf_path output_dir : string) (dpi : nat) (e : exn) (w : World) :
  fitz_open env pdf_path = Raise e →
  (∀ c, e ≠ SystemExit c) →
  convert_pdf_to_numbered_images env pdf_path output_dir dpi w =
    (mkWorld (files w)
       (stdout w ++ ["❗️ An error occurred while processing the PDF: " +:+
                     exn_message e]), Raise (SystemExit 1)).
Proof.
  intros Hopen Hexn.
  unfold convert_pdf_to_numbered_images, convert_pages.
  rewrite bind_run. unfold lift at 1. rewrite Hopen.
  destruct e; try done. by destruct (Hexn code).
Qed.

(** Steps 1 and 2 on a path that passes the validation and whose output
    directory is created: two lines are printed and the processing
    starts. *)
Lemma convert_pdf_to_numbered_images_valid (env : Collaborators)
    (pdf_path_str : string) (dpi : nat) (w : World) :
  os_path_isfile env (files w) (path_str pdf_path_str) = true →
  lower (path_suffix pdf_path_str) = ".pdf" →
  os_makedirs env (files w) (PdfToImage.output_dir_of pdf_path_str) = Ok () →
  PdfToImage.convert_pdf_to_numbered_images env pdf_path_str dpi w =
    convert_pdf_to_numbered_images env (path_str pdf_path_str)
      (PdfToImage.output_dir_of pdf_path_str) dpi
      (mkWorld (files w)
         (stdout w ++
          ["✅ Input PDF: '" +:+ path_name pdf_path_str +:+ "'";
           "📂 Output will be saved in: " +:+
           PdfToImage.output_dir_of pdf_path_str])).
Proof.
  intros Hfile Hsuffix Hdirs. unfold PdfToImage.convert_pdf_to_numbered_images.
  rewrite bind_run. unfold PdfToImage.is_file at 1. rewrite Hfile, Hsuffix.
  rewrite String.eqb_refl. cbn [negb orb]. rewrite bind_run.
  unfold PdfToImage.makedirs at 1. rewrite Hdirs.
  rewrite bind_run. unfold print at 1. rewrite bind_run. unfold print at 1.
  cbn [files stdout]. by rewrite <- (assoc_L (++)).
Qed.

(** X15. A page that does not render.  On a path that passes the
    validation and whose output directory is created, when the PDF opens,
    the pages before page [k] render and rendering page [k] fails inside
    the library, [convert_pdf_to_numbered_images] prints the two lines of
    step 2, the line announcing the page count and the error line with the
    message, and exits with status 1; the images of the pages before [k]
    stay where they were saved, and no other file changes: page [k] and
    the pages after it get no image. *)
Theorem convert_pdf_to_numbered_images_page_failure (env : Collaborators)
    (pdf_path_str : string) (dpi : nat) (doc : Document) (w : World)
    (k : nat) (msg : string) :
  let n := length (pages doc) in
  let output_dir := PdfToImage.output_dir_of pdf_path_str in
  os_path_isfile env (files w) (path_str pdf_path_str) = true →
  lower (path_suffix pdf_path_str) = ".pdf" →
  os_makedirs env (files w) output_dir = Ok () →
  fitz_open env (path_str pdf_path_str) = Ok doc →
  k < n →
  (∀ i, i < k → ∃ pix, get_pixmap env doc i dpi = Ok pix) →
  get_pixmap env doc k dpi = Raise (CollaboratorError msg) →
  ∃ w',
    PdfToImage.convert_pdf_to_numbered_images env pdf_path_str dpi w
      = (w', Raise (SystemExit 1)) ∧
    stdout w' =
      (stdout w ++
       ["✅ Input PDF: '" +:+ path_name pdf_path_str +:+ "'";
        "📂 Output will be saved in: " +:+ output_dir;
        "📄 Converting " +:+ str n +:+ " pages...";
        "❗️ An error occurred while processing the PDF: " +:+ msg])%list ∧
    (∀ i pix, i < k → get_pixmap env doc i dpi = Ok pix →
       files w' !! os_path_join output_dir (image_name n i) = Some pix) ∧
    (∀ p, (∀ i, i < k → p ≠ os_path_join output_dir (image_name n i)) →
       files w' !! p = files w !! p).
Proof.
  intros n output_dir Hfile Hsuffix Hdirs Hopen Hk Hpix Hfail.
  rewrite convert_pdf_to_numbered_images_valid by done. fold output_dir.
  destruct (process_page_failure env (path_str pdf_path_str) output_dir dpi doc
              (mkWorld (files w)
                 (stdout w ++
                  ["✅ Input PDF: '" +:+ path_name pdf_path_str +:+ "'";
                   "📂 Output will be saved in: " +:+ output_dir]))
              k (CollaboratorError msg))
    as (w' & Hrun & Hout & Hnew & Hkeep); [done .. |].
  exists w'. split; [done |]. split; [| done].
  rewrite Hout. cbn [stdout exn_message]. by rewrite <- (assoc_L (++)).
Qed.

Lemma convert_pdf_to_numbered_images_page_failure_witness :
  ∃ w',
    PdfToImage.convert_pdf_to_numbered_images
      (example_env_unrenderable (example_document 12) 9) "slides/lec.pdf" 400
      (mkWorld ∅ []) = (w', Raise (SystemExit 1)) ∧
    stdout w' =
      (stdout (mkWorld ∅ []) ++
       ["✅ Input PDF: '" +:+ path_name "slides/lec.pdf" +:+ "'";
        "📂 Output will be saved in: " +:+ PdfToImage.output_dir_of "slides/lec.pdf";
        "📄 Converting " +:+ str (length (pages (example_document 12))) +:+ " pages...";
        "❗️ An error occurred while processing the PDF: " +:+ "cannot render"])%list ∧
    (∀ i pix, i < 9 →
       get_pixmap (example_env_unrenderable (example_document 12) 9)
         (example_document 12) i 400 = Ok pix →
       files w' !! os_path_join (PdfToImage.output_dir_of "slides/lec.pdf")
                     (image_name (length (pages (example_document 12))) i) = Some pix) ∧
    (∀ p, (∀ i, i < 9 →
             p ≠ os_path_join (PdfToImage.output_dir_of "slides/lec.pdf")
                   (image_name (length (pages (example_document 12))) i)) →
       files w' !! p = files (mkWorld ∅ []) !! p).
Proof.
  apply (convert_pdf_to_numbered_images_page_failure
           (example_env_unrenderable (example_document 12) 9) "slides/lec.pdf"
           400 (example_document 12) (mkWorld ∅ []) 9 "cannot render").
  - reflexivity.
  - reflexivity.
  - reflexivity.
  - reflexivity.
  - cbn. lia.
  - intros i Hi. exists ("PNG " +:+ str i). cbn.
    destruct (decide (i = 9)); [lia | done].
  - reflexivity.
Defined.

(** X16. An empty PDF is not an error: on a path that passes the
    validation and whose output directory is created, when the PDF opens
    and has no page, [convert_pdf_to_numbered_images] prints the two lines
    of step 2 and the warning, writes no file and returns normally. *)
Theorem convert_pdf_to_numbered_images_empty (env : Collaborators)
    (pdf_path_str : string) (dpi : nat) (doc : Document) (w : World) :
  os_path_isfile env (files w) (path_str pdf_path_str) = true →
  lower (path_suffix pdf_path_str) = ".pdf" →
  os_makedirs env (files w) (PdfToImage.output_dir_of pdf_path_str) = Ok () →
  fitz_open env (path_str pdf_path_str) = Ok doc →
  pages doc = [] →
  PdfToImage.convert_pdf_to_numbered_images env pdf_path_str dpi w =
    (mkWorld (files w)
       (stdout w ++
        ["✅ Input PDF: '" +:+ path_name pdf_path_str +:+ "'";
         "📂 Output will be saved in: " +:+ PdfToImage.output_dir_of pdf_path_str;
         "⚠️ The PDF appears to be empty."]), Ok ()).
Proof.
  intros Hfile Hsuffix Hdirs Hopen Hpages.
  rewrite convert_pdf_to_numbered_images_valid by done.
  rewrite (process_empty _ _ _ _ doc) by done.
  cbn [files stdout]. by rewrite <- (assoc_L (++)).
Qed.

Lemma convert_pdf_to_numbered_images_empty_witness :
  PdfToImage.convert_pdf_to_numbered_images
    (example_collaborators empty_document example_chat []) "slides/lec.PDF" 400
    example_artifacts =
    (mkWorld (files example_artifacts)
       (stdout example_artifacts ++
        ["✅ Input PDF: '" +:+ path_name "slides/lec.PDF" +:+ "'";
         "📂 Output will be saved in: " +:+ PdfToImage.output_dir_of "slides/lec.PDF";
         "⚠️ The PDF appears to be empty."]), Ok ()).
Proof.
  by apply (convert_pdf_to_numbered_images_empty
              (example_collaborators empty_document example_chat [])
              "slides/lec.PDF" 400 empty_document example_artifacts).
Defined.

(** X17. A path that is refused, and a PDF that does not open.  When the
    path is not a file, or its suffix is not [.pdf] in any letter case,
    [convert_pdf_to_numbered_images] prints the line that the path is not
    a valid PDF file and exits with status 1 without opening anything.
    On a path that passes the validation and whose output directory is
    created, when opening the PDF fails inside the library, it prints the
    two lines of step 2 and the error line with the message, writes no
    file and exits with status 1. *)
Theorem convert_pdf_to_numbered_images_unopenable (env : Collaborators)
    (pdf_path_str : string) (dpi : nat) (w : World) :
  (os_path_isfile env (files w) (path_str pdf_path_str) = false ∨
   lower (path_suffix pdf_path_str) ≠ ".pdf" →
   PdfToImage.convert_pdf_to_numbered_images env pdf_path_str dpi w =
     (mkWorld (files w)
        (stdout w ++
         ["❌ Error: The path '" +:+ path_str pdf_path_str +:+
          "' is not a valid PDF file."]), Raise (SystemExit 1))) ∧
  (∀ msg,
     os_path_isfile env (files w) (path_str pdf_path_str) = true →
     lower (path_suffix pdf_path_str) = ".pdf" →
     os_makedirs env (files w) (PdfToImage.output_dir_of pdf_path_str) = Ok () →
     fitz_open env (path_str pdf_path_str) = Raise (CollaboratorError msg) →
     PdfToImage.convert_pdf_to_numbered_images env pdf_path_str dpi w =
       (mkWorld (files w)
          (stdout w ++
           ["✅ Input PDF: '" +:+ path_name pdf_path_str +:+ "'";
            "📂 Output will be saved in: " +:+ PdfToImage.output_dir_of pdf_path_str;
            "❗️ An error occurred while processing the PDF: " +:+ msg]),
        Raise (SystemExit 1))).
Proof.
  split.
  - intros Hbad. unfold PdfToImage.convert_pdf_to_numbered_images.
    rewrite bind_run. unfold PdfToImage.is_file at 1.
    assert (negb (os_path_isfile env (files w) (path_str pdf_path_str)) ||
            negb (String.eqb (lower (path_suffix pdf_path_str)) ".pdf") = true)
      as ->; [| done].
    destruct Hbad as [-> | Hsuffix]; [done |].
    apply orb_true_iff. right. apply negb_true_iff.
    by apply String.eqb_neq.
  - intros msg Hfile Hsuffix Hdirs Hopen.
    rewrite convert_pdf_to_numbered_images_valid by done.
    rewrite (process_unopenable _ _ _ _ (CollaboratorError msg)) by done.
    cbn [files stdout exn_message]. by rewrite <- (assoc_L (++)).
Qed.

Lemma convert_pdf_to_numbered_images_unopenable_witness :
  PdfToImage.convert_pdf_to_numbered_images example_env_unopenable
    "slides/notes.txt" 400 example_artifacts =
    (mkWorld (files example_artifacts)
       (stdout example_artifacts ++
        ["❌ Error: The path '" +:+ path_str "slides/notes.txt" +:+
         "' is not a valid PDF file."]), Raise (SystemExit 1)) ∧
  PdfToImage.convert_pdf_to_numbered_images example_env_unopenable
    "slides/lec.pdf" 400 example_artifacts =
    (mkWorld (files example_artifacts)
       (stdout example_artifacts ++
        ["✅ Input PDF: '" +:+ path_name "slides/lec.pdf" +:+ "'";
         "📂 Output will be saved in: " +:+ PdfToImage.output_dir_of "slides/lec.pdf";
         "❗️ An error occurred while processing the PDF: " +:+
         "cannot open broken document"]),
     Raise (SystemExit 1)).
Proof.
  split.
  - apply (proj1 (convert_pdf_to_numbered_images_unopenable example_env_unopenable
                    "slides/notes.txt" 400 example_artifacts)).
    right. by vm_compute.
  - by apply (proj2 (convert_pdf_to_numbered_images_unopenable example_env_unopenable
                       "slides/lec.pdf" 400 example_artifacts)
                "cannot open broken document").
Defined.

(** ** Frames with and without fences *)

Lemma leading_backquotes_app (s : string) (c : ascii) (t : string) :
  c ≠ "`"%char →
  leading_backquotes (s +:+ String c t) = leading_backquotes s.
Proof.
  intros Hc. induction s as [|a s IH].
  - rewrite str_app_nil_l. cbn [leading_backquotes].
    by destruct (Ascii.eqb_spec c "`").
  - rewrite str_app_cons. cbn [leading_backquotes]. by rewrite IH.
Qed.

Lemma prefix_fence_latex (x : string) :
  String.prefix "```" x = false → String.prefix "```latex" x = false.
Proof.
  intros Hx. destruct (String.prefix "```latex" x) eqn:E; [| done].
  destruct (prefix_app _ _ E) as [r ->].
  change ("```latex" +:+ r) with ("```" +:+ ("latex" +:+ r)) in Hx.
  by rewrite prefix_app_true in Hx.
Qed.

(** A stretch without fence that ends before a character other than a
    backquote is copied by either substitution. *)
Lemma re_sub_delete_app (pat s : string) (c : ascii) (t : string) :
  (∀ x, String.prefix "```" x = false → String.prefix pat x = false) →
  occursb "```" s = false → c ≠ "`"%char →
  re_sub_delete pat (s +:+ String c t) = s +:+ re_sub_delete pat (String c t).
Proof.
  intros Hpat Hs Hc. induction s as [|a s IH]; [done |].
  cbn [occursb] in Hs. apply orb_false_elim in Hs as [Hp Hs].
  rewrite !str_app_cons, re_sub_delete_keep; [by rewrite IH |].
  apply Hpat. rewrite <- str_app_cons, prefix_backquotes, leading_backquotes_app by done.
  by rewrite <- prefix_backquotes.
Qed.

Lemma not_occurs_occursb (pat s : string) : ¬ occurs pat s → occursb pat s = false.
Proof.
  intros Hs. destruct (occursb pat s) eqn:E; [| done].
  by apply occursb_occurs in E.
Qed.

(** X18. A frame without a code fence is written as it is: when three
    backquotes occur nowhere in the generated frame,
    [create_latex_document] leaves in the artifact the frame itself,
    followed by a newline. *)
Theorem create_latex_document_verbatim (frame output_file : string) (w : World) :
  ¬ occurs "```" frame →
  create_latex_document frame output_file w =
    (mkWorld (<[output_file := frame +:+ nl]> (files w)) (stdout w), Ok ()).
Proof.
  intros Hfence%not_occurs_occursb.
  rewrite create_latex_document_run. unfold clean_frame.
  rewrite (re_sub_delete_id "```latex") by (by apply occursb_fence_latex).
  by rewrite re_sub_delete_id.
Qed.

Lemma create_latex_document_verbatim_witness :
  create_latex_document "\begin{frame} ``two`` \end{frame}"
    "lec_beamers/lec_page_28.tex" example_artifacts =
    (mkWorld (<["lec_beamers/lec_page_28.tex" :=
                  "\begin{frame} ``two`` \end{frame}" +:+ nl]>
                (files example_artifacts))
       (stdout example_artifacts), Ok ()).
Proof.
  apply (create_latex_document_verbatim "\begin{frame} ``two`` \end{frame}"
           "lec_beamers/lec_page_28.tex" example_artifacts).
  intros Hocc%occurs_occursb. by vm_compute in Hocc.
Defined.

Lemma clean_frame_fenced (body : string) :
  occursb "```" body = false →
  clean_frame ("```latex" +:+ nl +:+ body +:+ nl +:+ "```") = nl +:+ body +:+ nl.
Proof.
  intros Hbody. unfold clean_frame, nl.
  rewrite re_sub_delete_match by done.
  rewrite !str_app_cons, !str_app_nil_l.
  rewrite re_sub_delete_keep by done.
  rewrite (re_sub_delete_app "```latex") by (done || apply prefix_fence_latex).
  change (re_sub_delete "```latex" (String (ascii_of_nat 10) "```"))
    with (String (ascii_of_nat 10) "```").
  rewrite re_sub_delete_keep by done.
  by rewrite (re_sub_delete_app "```") by done.
Qed.

(** X19. A frame fenced as a LaTeX code block.  When the generator
    answers with an opening fence, a line break, a body in which three
    backquotes occur nowhere, a line break and a closing fence,
    [create_latex_document] leaves in the artifact the body exactly as it
    was, between the two line breaks that followed and preceded the
    fences, and the final newline. *)
Theorem create_latex_document_fenced (body output_file : string) (w : World) :
  ¬ occurs "```" body →
  create_latex_document ("```latex" +:+ nl +:+ body +:+ nl +:+ "```") output_file w =
    (mkWorld (<[output_file := nl +:+ body +:+ nl +:+ nl]> (files w)) (stdout w),
     Ok ()).
Proof.
  intros Hbody%not_occurs_occursb.
  rewrite create_latex_document_run, clean_frame_fenced by done.
  by rewrite !str_app_assoc.
Qed.

Lemma create_latex_document_fenced_witness :
  create_latex_document
    ("```latex" +:+ nl +:+ "\begin{frame} `x` \end{frame}" +:+ nl +:+ "```")
    "lec_beamers/lec_page_28.tex" example_artifacts =
    (mkWorld (<["lec_beamers/lec_page_28.tex" :=
                  nl +:+ "\begin{frame} `x` \end{frame}" +:+ nl +:+ nl]>
                (files example_artifacts))
       (stdout example_artifacts), Ok ()).
Proof.
  apply (create_latex_document_fenced "\begin{frame} `x` \end{frame}"
           "lec_beamers/lec_page_28.tex" example_artifacts).
  intros Hocc%occurs_occursb. by vm_compute in Hocc.
Defined.
